(** * JavaClassGenerator: the R.java emitter of aapt2

    A shallow embedding of [tools/aapt2/JavaClassGenerator.cpp] and the
    properties of the text it writes.

    Conventions of the embedding:
    - [std::u16string] and [StringPiece16] are [string]; the narrow output
      stream is the [string] of everything written so far, and
      [out << x] appends the printed form of [x];
    - [size_t] loop counters are [nat] (no loop here can wrap), the numeric
      parts of an identifier are [N];
    - the generator object is split into what never changes ([mTable],
      [mOptions]) and what a call may change ([mError], together with the
      stream), the latter threaded through a small state monad;
    - [assert] is kept: a failed assertion ends the run in [AssertionFailed];
    - what the file only includes ([Resource.h], [ResourceTable.h],
      [ResourceValues.h], [NameMangler.h]) is abstract: the classes
      [ResourceModel] and [Collaborators] list exactly the operations the
      generator calls on it. *)

From Stdlib Require Import String Ascii List Bool Arith NArith Lia.
From Stdlib Require Import Permutation Sorted DecimalString OrderedTypeEx.
Import ListNotations.

Local Open Scope list_scope.
Local Open Scope string_scope.

(** ** Types of [Resource.h] that the generator only passes around *)

Class ResourceModel : Type := {
  (** [enum class ResourceType], with the one enumerator named here *)
  ResourceType : Type;
  kStyleable : ResourceType;
  (** [operator==] on [ResourceType] *)
  ResourceType_eqb : ResourceType -> ResourceType -> bool;
  (** [operator<<] of a [ResourceType] on the stream *)
  ResourceType_print : ResourceType -> string;
  (** [struct ResourceId] *)
  ResourceId : Type;
  (** the constructor used as [ResourceId id = { p, t, e }] *)
  ResourceId_make : N -> N -> N -> ResourceId;
  (** [ResourceId::isValid] *)
  ResourceId_isValid : ResourceId -> bool;
  (** [operator<] on [ResourceId] *)
  ResourceId_ltb : ResourceId -> ResourceId -> bool;
  (** [operator<<] of a [ResourceId] on the stream: its packed form *)
  ResourceId_print : ResourceId -> string
}.

Section DataModel.
Context `{RM : ResourceModel}.

(** [struct ResourceNameRef { package; type; entry }] *)
Record ResourceNameRef : Type := {
  ref_package : string;
  ref_type : ResourceType;
  ref_entry : string
}.

(** An element of [Styleable::entries]: the generator reads [attr.id] and
    [attr.name]. *)
Record Reference : Type := {
  attr_id : ResourceId;
  attr_name : ResourceNameRef
}.

(** [struct Styleable { std::vector<Reference> entries; }] *)
Record Styleable : Type := {
  st_entries : list Reference
}.

(** Modelled from the spec: the value kinds, of which section 3 names
    only Styleable ("a Value variant"). [accept] dispatches to the visitor
    method of the value's kind; the generator overrides the one for
    [Styleable] alone, so every other kind reaches an inherited method
    that writes nothing. *)
Inductive Value : Type :=
| StyleableValue (styleable : Styleable)
| OtherValue.

(** An element of [ResourceEntry::values]; only [.value] is read. *)
Record ResourceConfigValue : Type := {
  value : Value
}.

Record ResourceEntry : Type := {
  entryId : N;
  name : string;
  values : list ResourceConfigValue
}.

Record ResourceTableType : Type := {
  type : ResourceType;
  typeId : N;
  entries : list ResourceEntry
}.

(** [ResourceTable]: [getPackage()], [getPackageId()] and the iteration
    [begin()..end()] over its types. *)
Record ResourceTable : Type := {
  getPackage : string;
  getPackageId : N;
  types : list ResourceTableType
}.

(** [JavaClassGenerator::Options] *)
Record Options : Type := {
  useFinal : bool
}.
End DataModel.

(** ** Operations of the collaborators *)

Class Collaborators `{RM : ResourceModel} : Type := {
  (** [ResourceNameRef::isValid] *)
  ResourceNameRef_isValid : ResourceNameRef -> bool;
  (** [operator<] on [ResourceNameRef] *)
  ResourceNameRef_ltb : ResourceNameRef -> ResourceNameRef -> bool;
  (** [operator<<] of a [ResourceNameRef] on the stream *)
  ResourceNameRef_print : ResourceNameRef -> string;
  (** Modelled from the spec: [NameMangler::unmangle], section 6:
      "unmangle(name) -> (plainName, originPackage) | not-mangled". The C++
      function works on two out-parameters and answers [true] when it
      rewrote them; [None] is the answer [false], which leaves the name as
      it was. *)
  unmangle : string -> option (string * string)
}.

(** ** The stream and the assertion monad *)

Record state : Type := {
  out : string;      (* the text written to [std::ostream& out] so far *)
  mError : string    (* the generator's [mError] field *)
}.

Inductive outcome (A : Type) : Type :=
| Returns (a : A) (s : state)
| AssertionFailed (msg : string) (s : state).
Arguments Returns {A} a s.
Arguments AssertionFailed {A} msg s.

Definition M (A : Type) : Type := state -> outcome A.

Definition ret {A} (a : A) : M A := fun s => Returns a s.

Definition bind {A B} (m : M A) (k : A -> M B) : M B :=
  fun s => match m s with
           | Returns a s' => k a s'
           | AssertionFailed msg s' => AssertionFailed msg s'
           end.

Declare Scope gen_scope.
Delimit Scope gen_scope with gen.
Notation "x <- m ;; k" := (bind m (fun x => k))
  (at level 61, m at next level, right associativity) : gen_scope.
Notation "m ;; k" := (bind m (fun _ => k))
  (at level 61, right associativity) : gen_scope.
Local Open Scope gen_scope.

(** [out << text] *)
Definition write (text : string) : M unit :=
  fun s => Returns tt {| out := out s ++ text; mError := mError s |}.

(** [mError = text] *)
Definition setError (text : string) : M unit :=
  fun s => Returns tt {| out := out s; mError := text |}.

(** [assert(cond)] *)
Definition assert (cond : bool) (msg : string) : M unit :=
  fun s => if cond then Returns tt s else AssertionFailed msg s.

(** [std::endl]: a line feed (the flush is not observable here) *)
Definition endl : string := String (ascii_of_nat 10) EmptyString.

(** A range-based [for] whose body may leave the enclosing function:
    the body answers [Some r] for [return r] and [None] when the iteration
    ends normally or by [continue]. *)
Fixpoint for_each {A R} (l : list A) (body : A -> M (option R)) : M (option R) :=
  match l with
  | [] => ret None
  | x :: rest =>
      r <- body x ;;
      match r with
      | Some v => ret (Some v)
      | None => for_each rest body
      end
  end.

(** [for (size_t i = from; i < from + count; i++) body(i)] *)
Fixpoint for_range (count from : nat) (body : nat -> M unit) : M unit :=
  match count with
  | O => ret tt
  | S count' => body from ;; for_range count' (S from) body
  end.

(** [out << i] for a [size_t]: decimal digits *)
Definition print_size_t (i : nat) : string :=
  NilZero.string_of_uint (Nat.to_uint i).

(** ** The generator *)

(** [constexpr size_t kAttribsPerLine = 4;] *)
Definition kAttribsPerLine : nat := 4.

Definition generateHeader (package : string) : M unit :=
  write ("/* AUTO-GENERATED FILE. DO NOT MODIFY." ++ endl ++
         " *" ++ endl ++
         " * This class was automatically generated by the" ++ endl ++
         " * aapt tool from the resource data it found. It" ++ endl ++
         " * should not be modified by hand." ++ endl ++
         " */" ++ endl ++ endl) ;;
  write "package " ;; write package ;; write ";" ;;
  write endl ;;
  write endl.

Definition sJavaIdentifiers : list string :=
  [ "abstract"; "assert"; "boolean"; "break"; "byte";
    "case"; "catch"; "char"; "class"; "const"; "continue";
    "default"; "do"; "double"; "else"; "enum"; "extends";
    "final"; "finally"; "float"; "for"; "goto"; "if";
    "implements"; "import"; "instanceof"; "int"; "interface";
    "long"; "native"; "new"; "package"; "private"; "protected";
    "public"; "return"; "short"; "static"; "strictfp"; "super";
    "switch"; "synchronized"; "this"; "throw"; "throws";
    "transient"; "try"; "void"; "volatile"; "while"; "true";
    "false"; "null" ].

(** [sJavaIdentifiers.find(symbol) == sJavaIdentifiers.end()] *)
Definition isValidSymbol (symbol : string) : bool :=
  negb (existsb (String.eqb symbol) sJavaIdentifiers).

(** Java symbols can not contain . or -, but those are valid in a resource
    name. Replace those with '_'. *)
Fixpoint transform (symbol : string) : string :=
  match symbol with
  | EmptyString => EmptyString
  | String c output =>
      String (if (Ascii.eqb c "." || Ascii.eqb c "-")%bool then "_"%char else c)
             (transform output)
  end.

(** [std::pair]'s [operator<], from [operator<] of the two components:
    [a.first < b.first || (!(b.first < a.first) && a.second < b.second)]. *)
Definition std_pair_ltb {A B : Type} (ltbA : A -> A -> bool)
           (ltbB : B -> B -> bool) (a b : A * B) : bool :=
  (ltbA (fst a) (fst b)
   || (negb (ltbA (fst b) (fst a)) && ltbB (snd a) (snd b)))%bool.

(** [std::sort(begin, end)] with the order [ltb] as [operator<]: the
    standard fixes the result only as a permutation in ascending order;
    this is the insertion sort, and [sorted_unique] below shows that no
    other answer exists when the order is total. *)
Section StdSort.
Context {A : Type} (ltb : A -> A -> bool).

Fixpoint sort_insert (a : A) (l : list A) : list A :=
  match l with
  | [] => [a]
  | b :: rest => if ltb a b then a :: b :: rest
                 else b :: sort_insert a rest
  end.

Fixpoint std_sort (l : list A) : list A :=
  match l with
  | [] => []
  | a :: rest => sort_insert a (std_sort rest)
  end.
End StdSort.

Section Generator.
Context `{C : Collaborators}.

(** The generator's constant fields. *)
Variable mTable : ResourceTable.
Variable mOptions : Options.

(** [operator<] on the elements of [sortedAttributes] *)
Definition pair_ltb : ResourceId * ResourceNameRef ->
                      ResourceId * ResourceNameRef -> bool :=
  std_pair_ltb ResourceId_ltb ResourceNameRef_ltb.

(** Lines 99-103: the loop that fills [sortedAttributes]. *)
Fixpoint collectAttributes (attrs : list Reference)
  : M (list (ResourceId * ResourceNameRef)) :=
  match attrs with
  | [] => ret []
  | attr :: rest =>
      assert (ResourceId_isValid (attr_id attr)) "no ID set for Styleable entry" ;;
      assert (ResourceNameRef_isValid (attr_name attr)) "no name set for Styleable entry" ;;
      tail <- collectAttributes rest ;;
      ret ((attr_id attr, attr_name attr) :: tail)
  end.

(** [JavaClassGenerator::visit(const Styleable&, ValueVisitorArgs&)];
    the two fields of [GenArgs] are the stream, which the monad carries,
    and [entryName]. An index outside the vector cannot occur, since
    [i < attrCount]; the model writes nothing there. *)
Definition visit (styleable : Styleable) (entryName : string) : M unit :=
  let finalModifier := if useFinal mOptions then " final" else "" in
  (* This must be sorted by resource ID. *)
  collected <- collectAttributes (st_entries styleable) ;;
  let sortedAttributes := std_sort pair_ltb collected in
  (* First we emit the array containing the IDs of each attribute. *)
  write "        " ;;
  write "public static final int[] " ;; write (transform entryName) ;; write " = {" ;;
  let attrCount := List.length sortedAttributes in
  for_range attrCount 0 (fun i =>
    (if (i mod kAttribsPerLine =? 0)%nat
     then write endl ;; write "            "
     else ret tt) ;;
    match nth_error sortedAttributes i with
    | Some attr => write (ResourceId_print (fst attr))
    | None => ret tt
    end ;;
    if negb (i =? attrCount - 1)%nat then write ", " else ret tt) ;;
  write endl ;; write "        };" ;; write endl ;;
  (* Now we emit the indices into the array. *)
  for_range attrCount 0 (fun i =>
    write "        " ;;
    write "public static" ;; write finalModifier ;;
    write " int " ;; write (transform entryName) ;;
    match nth_error sortedAttributes i with
    | Some attr =>
        (* We may reference IDs from other packages, so prefix the entry
           name with the package. *)
        let itemName := snd attr in
        (if negb (ref_package itemName =? getPackage mTable)%string
         then write "_" ;; write (transform (ref_package itemName))
         else ret tt) ;;
        write "_" ;; write (transform (ref_entry itemName)) ;;
        write " = " ;; write (print_size_t i) ;; write ";" ;; write endl
    | None => ret tt
    end).

(** [value->accept] with this generator as the visitor and
    [GenArgs{ &out, &unmangledName }] as its arguments *)
Definition accept (v : Value) (entryName : string) : M unit :=
  match v with
  | StyleableValue styleable => visit styleable entryName
  | OtherValue => ret tt
  end.

(** Lines 165-179 of [generateType]: the part of the loop body after the
    package filter, for the entry's name [unmangledName]. *)
Definition emitEntry (package : string) (packageId : N)
           (type_ : ResourceTableType) (entry : ResourceEntry)
           (unmangledName : string) : M (option bool) :=
  let finalModifier := if useFinal mOptions then " final" else "" in
  let id := ResourceId_make packageId (typeId type_) (entryId entry) in
  if negb (isValidSymbol unmangledName) then
    let resourceName := {| ref_package := package;
                           ref_type := type type_;
                           ref_entry := unmangledName |} in
    setError ("invalid symbol name '" ++ ResourceNameRef_print resourceName ++ "'") ;;
    ret (Some false)
  else if ResourceType_eqb (type type_) kStyleable then
    assert (negb (match values entry with [] => true | _ => false end))
           "!entry->values.empty()" ;;
    match values entry with
    | front :: _ => accept (value front) unmangledName
    | [] => ret tt
    end ;;
    ret None
  else
    write "        " ;; write "public static" ;; write finalModifier ;;
    write " int " ;; write (transform unmangledName) ;; write " = " ;;
    write (ResourceId_print id) ;; write ";" ;; write endl ;;
    ret None.

(** Lines 146-179: the body of the loop of [generateType]. *)
Definition generateEntry (package : string) (packageId : N)
           (type_ : ResourceTableType) (entry : ResourceEntry)
  : M (option bool) :=
  let id := ResourceId_make packageId (typeId type_) (entryId entry) in
  assert (ResourceId_isValid id) "id.isValid()" ;;
  match unmangle (name entry) with
  | Some (unmangledName, unmangledPackage) =>
      (* The entry name was mangled, and we successfully unmangled it.
         Check that we want to emit this symbol. *)
      if negb (package =? unmangledPackage)%string
      then ret None   (* continue *)
      else emitEntry package packageId type_ entry unmangledName
  | None =>
      if negb (package =? getPackage mTable)%string
      then ret None   (* continue *)
      else emitEntry package packageId type_ entry (name entry)
  end.

Definition generateType (package : string) (packageId : N)
           (type_ : ResourceTableType) : M bool :=
  r <- for_each (entries type_) (generateEntry package packageId type_) ;;
  match r with
  | Some b => ret b
  | None => ret true
  end.

(** Lines 192-196: the body of the loop of [generate]. *)
Definition generateClass (package : string) (packageId : N)
           (type_ : ResourceTableType) : M (option bool) :=
  write "    public static final class " ;;
  write (ResourceType_print (type type_)) ;; write " {" ;; write endl ;;
  ok <- generateType package packageId type_ ;;
  if negb ok then ret (Some false)
  else write "    }" ;; write endl ;; ret None.

Definition generate (package : string) : M bool :=
  let packageId := getPackageId mTable in
  generateHeader package ;;
  write "public final class R {" ;; write endl ;;
  r <- for_each (types mTable) (generateClass package packageId) ;;
  match r with
  | Some b => ret b
  | None => write "}" ;; write endl ;; ret true
  end.

End Generator.

(** ** Vocabulary of the statements *)

(** The state after [text] has been written to the stream. *)
Definition emit (s : state) (text : string) : state :=
  {| out := out s ++ text; mError := mError s |}.

(** A list with the positions of its elements, from 0. *)
Definition indexed {A} (l : list A) : list (nat * A) :=
  combine (seq 0 (List.length l)) l.

(** The pieces of text of a list, one after the other. *)
Definition joined (pieces : list string) : string :=
  fold_right String.append "" pieces.

(** One declaration of an [int] constant, as a line of the class body. *)
Definition constantDecl (final : bool) (symbol val : string) : string :=
  "        public static" ++ (if final then " final" else "") ++
  " int " ++ symbol ++ " = " ++ val ++ ";" ++ endl.

(** The opening and closing lines of the nested class of a type. *)
Definition classOpen (tag : string) : string :=
  "    public static final class " ++ tag ++ " {" ++ endl.

Definition classClose : string := "    }" ++ endl.

(** The banner, the package line and the opening line of [R]. *)
Definition preamble (package : string) : string :=
  "/* AUTO-GENERATED FILE. DO NOT MODIFY." ++ endl ++
  " *" ++ endl ++
  " * This class was automatically generated by the" ++ endl ++
  " * aapt tool from the resource data it found. It" ++ endl ++
  " * should not be modified by hand." ++ endl ++
  " */" ++ endl ++ endl ++
  "package " ++ package ++ ";" ++ endl ++ endl ++
  "public final class R {" ++ endl.

Section Vocabulary.
Context `{C : Collaborators}.
Variable mTable : ResourceTable.

(** The entry passes the package filter of [generateType] for the
    requested [package], under the name [plainName]: either its name
    unmangles to [plainName] with origin [package], or it is not mangled,
    [package] is the table's own and [plainName] is the name itself. *)
Definition passesFilter (package : string) (entry : ResourceEntry)
           (plainName : string) : Prop :=
  unmangle (name entry) = Some (plainName, package)
  \/ (unmangle (name entry) = None
      /\ package = getPackage mTable /\ plainName = name entry).

(** The entry has no reserved name under which it passes the filter. *)
Definition entryValid (package : string) (entry : ResourceEntry) : Prop :=
  forall plainName,
    passesFilter package entry plainName -> isValidSymbol plainName = true.

(** The entry passes the filter under a reserved name. *)
Definition entryReserved (package : string) (entry : ResourceEntry) : Prop :=
  exists plainName,
    passesFilter package entry plainName /\ isValidSymbol plainName = false.

(** The identifier [generateType] computes for an entry. *)
Definition entryResourceId (type_ : ResourceTableType) (entry : ResourceEntry)
  : ResourceId :=
  ResourceId_make (getPackageId mTable) (typeId type_) (entryId entry).

(** The pairs [visit] collects from a styleable, before sorting. *)
Definition attributePairs (styleable : Styleable)
  : list (ResourceId * ResourceNameRef) :=
  map (fun attr => (attr_id attr, attr_name attr)) (st_entries styleable).

(** Every attribute passes the two assertions of [visit]. *)
Definition attributesValid (styleable : Styleable) : bool :=
  forallb (fun attr => ResourceId_isValid (attr_id attr)
                       && ResourceNameRef_isValid (attr_name attr))%bool
          (st_entries styleable).

(** The preconditions the generator asserts, for one entry: its
    identifier is valid and, in the styleable type, it has a value, whose
    attributes (when the first value is a styleable) have valid
    identifiers and names. *)
Definition entryAssertionsHold (type_ : ResourceTableType)
           (entry : ResourceEntry) : bool :=
  (ResourceId_isValid (entryResourceId type_ entry)
   && (if ResourceType_eqb (type type_) kStyleable then
         match values entry with
         | [] => false
         | front :: _ =>
             match value front with
             | StyleableValue styleable => attributesValid styleable
             | OtherValue => true
             end
         end
       else true))%bool.

(** The entry has something to declare: it is outside the styleable type,
    or its first value is a styleable (whose attributes pass the
    assertions of [visit]). This is more than line 174 asserts, which is
    only that there is a value: a first value of another kind is visited
    without a word written. *)
Definition styleableWellFormed (type_ : ResourceTableType)
           (entry : ResourceEntry) : bool :=
  if ResourceType_eqb (type type_) kStyleable then
    match values entry with
    | [] => false
    | front :: _ =>
        match value front with
        | StyleableValue styleable => attributesValid styleable
        | OtherValue => false
        end
    end
  else true.

Definition typeAssertionsHold (type_ : ResourceTableType) : bool :=
  forallb (entryAssertionsHold type_) (entries type_).

Definition assertionsHold : bool :=
  forallb typeAssertionsHold (types mTable).

(** The element of the array at position [i] of [attrCount], with the
    line break before every fourth one and the comma after all but the
    last. *)
Definition arrayElement (attrCount : nat) (p : nat * ResourceId) : string :=
  (if (fst p mod kAttribsPerLine =? 0)%nat then endl ++ "            " else "") ++
  ResourceId_print (snd p) ++
  (if (fst p =? attrCount - 1)%nat then "" else ", ").

(** The name of the index constant of the attribute [itemName] of the
    styleable [owner]: the owner, then the attribute's package when it is
    not the table's own, then the attribute, each transformed and joined
    by underscores. *)
Definition indexSymbol (owner : string) (itemName : ResourceNameRef) : string :=
  transform owner ++ "_" ++
  (if (ref_package itemName =? getPackage mTable)%string then ""
   else transform (ref_package itemName) ++ "_") ++
  transform (ref_entry itemName).

(** The attributes in the order of the array. *)
Definition sortedAttributes (styleable : Styleable)
  : list (ResourceId * ResourceNameRef) :=
  std_sort pair_ltb (attributePairs styleable).

(** The declaration of the index constant of the attribute at a
    position. *)
Definition indexDecl (mOptions : Options) (owner : string)
           (p : nat * (ResourceId * ResourceNameRef)) : string :=
  constantDecl (useFinal mOptions) (indexSymbol owner (snd (snd p)))
               (print_size_t (fst p)).

(** The declaration of the array of a styleable. *)
Definition arrayDecl (symbol : string) (ids : list ResourceId) : string :=
  "        public static final int[] " ++ symbol ++ " = {" ++
  joined (map (arrayElement (List.length ids)) (indexed ids)) ++
  endl ++ "        };" ++ endl.
End Vocabulary.

(** The order on identifiers is a strict total order. *)
Class ResourceIdOrder `{RM : ResourceModel} : Prop := {
  ResourceId_lt_irrefl : forall a, ResourceId_ltb a a = false;
  ResourceId_lt_trans : forall a b c,
      ResourceId_ltb a b = true -> ResourceId_ltb b c = true ->
      ResourceId_ltb a c = true;
  ResourceId_lt_total : forall a b,
      ResourceId_ltb a b = false -> ResourceId_ltb b a = false -> a = b
}.

(** The order on name references is a strict total order. *)
Class ResourceNameRefOrder `{C : Collaborators} : Prop := {
  ResourceNameRef_lt_irrefl : forall a, ResourceNameRef_ltb a a = false;
  ResourceNameRef_lt_trans : forall a b c,
      ResourceNameRef_ltb a b = true -> ResourceNameRef_ltb b c = true ->
      ResourceNameRef_ltb a c = true;
  ResourceNameRef_lt_total : forall a b,
      ResourceNameRef_ltb a b = false -> ResourceNameRef_ltb b a = false -> a = b
}.

(** Ascending order for [operator<]: the next element is not smaller. *)
Definition ascending {A} (ltb : A -> A -> bool) (a b : A) : Prop :=
  ltb b a = false.

Definition ResourceId_le `{RM : ResourceModel} : ResourceId -> ResourceId -> Prop :=
  ascending ResourceId_ltb.

(** [writes c text]: from every state, [c] returns after appending exactly
    [text] to the stream. *)
Definition writes (c : M unit) (text : string) : Prop :=
  forall s, c s = Returns tt (emit s text).

(** [yields c v text]: from every state, [c] returns [v] after appending
    exactly [text] to the stream. *)
Definition yields {A} (c : M A) (v : A) (text : string) : Prop :=
  forall s, c s = Returns v (emit s text).

(** What one iteration of the loop over the entries did with an entry:
    it wrote some text for it and goes on, or it wrote nothing and goes
    on. *)
Definition emitted (r : outcome (option bool)) (s : state) : Prop :=
  exists text, text <> "" /\ r = Returns None (emit s text).

Definition skipped (r : outcome (option bool)) (s : state) : Prop :=
  r = Returns None s.

(** Two tables that agree on everything the generator reads: package name
    and identifier, and type by type, entry by entry, the type tag, the
    identifiers, the names and, in the styleable type only, the first
    value. *)
Section SameSymbols.
Context `{RM : ResourceModel}.

Definition sameEntry (styleable : bool) (e1 e2 : ResourceEntry) : Prop :=
  entryId e1 = entryId e2 /\ name e1 = name e2
  /\ (styleable = true -> hd_error (values e1) = hd_error (values e2)).

Definition sameType (t1 t2 : ResourceTableType) : Prop :=
  type t1 = type t2 /\ typeId t1 = typeId t2
  /\ Forall2 (sameEntry (ResourceType_eqb (type t1) kStyleable))
             (entries t1) (entries t2).

Definition sameSymbols (t1 t2 : ResourceTable) : Prop :=
  getPackage t1 = getPackage t2 /\ getPackageId t1 = getPackageId t2
  /\ Forall2 sameType (types t1) (types t2).
End SameSymbols.

(** ** The text of a whole run *)

(** The state in which a run ended, whether it returned or an assertion
    failed. *)
Definition finalState {A} (r : outcome A) : state :=
  match r with
  | Returns _ s => s
  | AssertionFailed _ s => s
  end.

(** [appends c]: whatever [c] does, the stream it leaves is the stream it
    found with some text after it. *)
Definition appends {A} (c : M A) : Prop :=
  forall s, exists text, out (finalState (c s)) = out s ++ text.

(** A lowercase letter of the basic Latin alphabet. *)
Definition isLowercase (c : ascii) : bool :=
  ((97 <=? nat_of_ascii c) && (nat_of_ascii c <=? 122))%nat.

Section OutputText.
Context `{C : Collaborators}.
Variable mTable : ResourceTable.
Variable mOptions : Options.
Variable package : string.

(** What lines 173-179 write for an entry emitted under [plainName]: the
    array and index constants of its first value in the styleable type
    (nothing when that value is of another kind), one constant otherwise. *)
Definition declarationText (type_ : ResourceTableType) (entry : ResourceEntry)
           (plainName : string) : string :=
  if ResourceType_eqb (type type_) kStyleable then
    match values entry with
    | front :: _ =>
        match value front with
        | StyleableValue styleable =>
            arrayDecl (transform plainName) (map fst (sortedAttributes styleable))
            ++ joined (map (indexDecl mTable mOptions plainName)
                           (indexed (sortedAttributes styleable)))
        | OtherValue => ""
        end
    | [] => ""
    end
  else
    constantDecl (useFinal mOptions) (transform plainName)
                 (ResourceId_print (entryResourceId mTable type_ entry)).

(** The text of an entry in the output for [package]: its declaration when
    it passes the package filter, nothing when it is skipped. *)
Definition entryText (type_ : ResourceTableType) (entry : ResourceEntry) : string :=
  match unmangle (name entry) with
  | Some (plainName, origin) =>
      if (package =? origin)%string then declarationText type_ entry plainName
      else ""
  | None =>
      if (package =? getPackage mTable)%string
      then declarationText type_ entry (name entry)
      else ""
  end.

(** The nested class of a type, with the texts of its entries in the order
    of the table. *)
Definition classText (type_ : ResourceTableType) : string :=
  classOpen (ResourceType_print (type type_)) ++
  joined (map (entryText type_) (entries type_)) ++
  classClose.

(** The whole file: banner, package line, and the class [R] with the
    nested classes of the types in the order of the table. *)
Definition tableText : string :=
  preamble package ++ joined (map classText (types mTable)) ++ "}" ++ endl.

(** The entry does not belong to [package]: its name unmangles to another
    origin, or it is not mangled and [package] is not the table's own. *)
Definition foreignEntry (entry : ResourceEntry) : Prop :=
  match unmangle (name entry) with
  | Some (_, origin) => origin <> package
  | None => package <> getPackage mTable
  end.
(** The error an entry leaves when it passes the filter under the reserved
    name [plainName]. *)
Definition reservedAt (type_ : ResourceTableType) (entry : ResourceEntry)
           (plainName : string) (s' : state) : Prop :=
  passesFilter mTable package entry plainName
  /\ isValidSymbol plainName = false
  /\ mError s' = "invalid symbol name '" ++
                 ResourceNameRef_print {| ref_package := package;
                                          ref_type := type type_;
                                          ref_entry := plainName |} ++ "'".

End OutputText.

(** Ascending order of the elements of [sortedAttributes], spelled out: the
    identifier grows, or stays and the name does not fall. *)
Definition attributeOrder `{C : Collaborators}
           (a b : ResourceId * ResourceNameRef) : Prop :=
  ResourceId_ltb (fst a) (fst b) = true
  \/ (fst a = fst b /\ ResourceNameRef_ltb (snd b) (snd a) = false).

(** ** An entry in the loop of [generateType] *)

Section InType.
Context `{C : Collaborators}.
Variable mTable : ResourceTable.
Variable mOptions : Options.
Variable package : string.
Variable tag : ResourceType.
Variable tid : N.

(** [generateType], as [generate] calls it, on the type with the given tag
    and identifier and the entries [l]. *)
Definition runType (l : list ResourceEntry) : M bool :=
  generateType mTable mOptions package (getPackageId mTable)
               {| type := tag; typeId := tid; entries := l |}.

(** [generateType] went through the entries [before], wrote some text for
    [entry], and goes on from there with whatever entries follow. *)
Definition emittedInType (before : list ResourceEntry) (entry : ResourceEntry)
           (s : state) : Prop :=
  exists s1 text,
    text <> "" /\ runType before s = Returns true s1
    /\ forall after, runType (before ++ entry :: after)%list s
                     = runType after (emit s1 text).

(** [generateType] went through the entries [before], left the state as it
    was at [entry], and goes on with whatever entries follow. *)
Definition skippedInType (before : list ResourceEntry) (entry : ResourceEntry)
           (s : state) : Prop :=
  exists s1,
    runType before s = Returns true s1
    /\ forall after, runType (before ++ entry :: after)%list s = runType after s1.
End InType.

(** ** The declarations of a class body *)

(** A declaration of a nested class: a constant with its value, or the
    array of a styleable with its identifiers. *)
Inductive Declaration `{RM : ResourceModel} : Type :=
| ConstantDeclaration (symbol val : string)
| ArrayDeclaration (symbol : string) (ids : list ResourceId).

Definition declaredSymbol `{RM : ResourceModel} (d : Declaration) : string :=
  match d with
  | ConstantDeclaration symbol _ => symbol
  | ArrayDeclaration symbol _ => symbol
  end.

(** The text of a declaration; only constants take the modifier. *)
Definition declarationLine `{RM : ResourceModel} (final : bool) (d : Declaration)
  : string :=
  match d with
  | ConstantDeclaration symbol val => constantDecl final symbol val
  | ArrayDeclaration symbol ids => arrayDecl symbol ids
  end.

Section Declarations.
Context `{C : Collaborators}.
Variable mTable : ResourceTable.
Variable package : string.

(** What lines 173-179 declare for an entry emitted under [plainName]. *)
Definition declarationsOf (type_ : ResourceTableType) (entry : ResourceEntry)
           (plainName : string) : list Declaration :=
  if ResourceType_eqb (type type_) kStyleable then
    match values entry with
    | front :: _ =>
        match value front with
        | StyleableValue styleable =>
            ArrayDeclaration (transform plainName)
                             (map fst (sortedAttributes styleable))
            :: map (fun p : nat * (ResourceId * ResourceNameRef) =>
                      ConstantDeclaration (indexSymbol mTable plainName (snd (snd p)))
                                          (print_size_t (fst p)))
                   (indexed (sortedAttributes styleable))
        | OtherValue => []
        end
    | [] => []
    end
  else
    [ ConstantDeclaration (transform plainName)
                          (ResourceId_print (entryResourceId mTable type_ entry)) ].

(** What an entry declares in the output for [package]. *)
Definition entryDeclarations (type_ : ResourceTableType) (entry : ResourceEntry)
  : list Declaration :=
  match unmangle (name entry) with
  | Some (plainName, origin) =>
      if (package =? origin)%string then declarationsOf type_ entry plainName
      else []
  | None =>
      if (package =? getPackage mTable)%string
      then declarationsOf type_ entry (name entry)
      else []
  end.
End Declarations.

(** ** A concrete resource model, to run the generator on examples

    Identifiers are the 32-bit numbers 0xPPTTEEEE, printed in hexadecimal;
    a mangled name is [package$name]. *)
Module Sample.

Inductive SampleType : Type := tAttr | tId | tString | tStyleable.

Definition SampleType_eqb (a b : SampleType) : bool :=
  match a, b with
  | tAttr, tAttr | tId, tId | tString, tString | tStyleable, tStyleable => true
  | _, _ => false
  end.

Definition SampleType_print (t : SampleType) : string :=
  match t with
  | tAttr => "attr" | tId => "id" | tString => "string"
  | tStyleable => "styleable"
  end.

Definition SampleType_index (t : SampleType) : nat :=
  match t with tAttr => 0 | tId => 1 | tString => 2 | tStyleable => 3 end.

Definition makeId (p t e : N) : N :=
  if ((255 <? p) || (255 <? t) || (65535 <? e))%N then 0%N
  else N.lor (N.shiftl p 24) (N.lor (N.shiftl t 16) e).

Definition isValidId (id : N) : bool :=
  (negb (N.land id 4278190080 =? 0)%N && negb (N.land id 16711680 =? 0)%N)%bool.

Definition hexDigit (n : N) : ascii :=
  nth (N.to_nat n) (list_ascii_of_string "0123456789abcdef") "0"%char.

Fixpoint hexDigits (count : nat) (n : N) (acc : string) : string :=
  match count with
  | O => acc
  | S count' =>
      hexDigits count' (N.shiftr n 4) (String (hexDigit (N.land n 15)) acc)
  end.

Definition printId (id : N) : string := "0x" ++ hexDigits 8 id "".

#[global] Instance model : ResourceModel := {|
  ResourceType := SampleType;
  kStyleable := tStyleable;
  ResourceType_eqb := SampleType_eqb;
  ResourceType_print := SampleType_print;
  ResourceId := N;
  ResourceId_make := makeId;
  ResourceId_isValid := isValidId;
  ResourceId_ltb := N.ltb;
  ResourceId_print := printId
|}.

Definition isValidName (r : ResourceNameRef) : bool :=
  (negb (ref_package r =? "")%string && negb (ref_entry r =? "")%string)%bool.

(** The order of [std::tie(package, type, entry)]. *)
Definition nameKey (r : ResourceNameRef) : string * (nat * string) :=
  (ref_package r, (SampleType_index (ref_type r), ref_entry r)).

Definition nameLtb (a b : ResourceNameRef) : bool :=
  std_pair_ltb String.ltb (std_pair_ltb Nat.ltb String.ltb)
               (nameKey a) (nameKey b).

Definition printName (r : ResourceNameRef) : string :=
  (if (ref_package r =? "")%string then "" else ref_package r ++ ":") ++
  SampleType_print (ref_type r) ++ "/" ++ ref_entry r.

(** The text before and after the first '$'. *)
Fixpoint splitAtDollar (s : string) : option (string * string) :=
  match s with
  | EmptyString => None
  | String c rest =>
      if Ascii.eqb c "$" then Some (EmptyString, rest)
      else match splitAtDollar rest with
           | Some (before, after) => Some (String c before, after)
           | None => None
           end
  end.

Definition unmangleAtDollar (mangled : string) : option (string * string) :=
  match splitAtDollar mangled with
  | Some (package, plainName) => Some (plainName, package)
  | None => None
  end.

#[global] Instance collaborators : Collaborators := {|
  ResourceNameRef_isValid := isValidName;
  ResourceNameRef_ltb := nameLtb;
  ResourceNameRef_print := printName;
  unmangle := unmangleAtDollar
|}.

Definition start : state := {| out := ""; mError := "" |}.

Definition attr (id : N) (entryName : string) : Reference :=
  {| attr_id := id;
     attr_name := {| ref_package := "app"; ref_type := tAttr;
                     ref_entry := entryName |} |}.

(** The scenario of the specification: a styleable "Theme" whose
    attributes are stored in the order 30, 10, 20 of their entry
    numbers. *)
Definition theme : Styleable :=
  {| st_entries := [ attr (makeId 1 1 30) "textColor";
                     attr (makeId 1 1 10) "background";
                     {| attr_id := makeId 1 1 20;
                        attr_name := {| ref_package := "android";
                                        ref_type := tAttr;
                                        ref_entry := "text-size" |} |} ] |}.

Definition themePermuted : Styleable :=
  {| st_entries := rev (st_entries theme) |}.

Definition idType (names : list (N * string)) : ResourceTableType :=
  {| type := tId; typeId := 1;
     entries := map (fun p => {| entryId := fst p; name := snd p;
                                 values := [] |}) names |}.

Definition styleableType : ResourceTableType :=
  {| type := tStyleable; typeId := 2;
     entries := [ {| entryId := 0; name := "Theme";
                     values := [ {| value := StyleableValue theme |} ] |} ] |}.

(** The same two types with other values: values on an entry of the type
    id, and more values after the first on the styleable entry. *)
Definition idTypeWithValues : ResourceTableType :=
  {| type := tId; typeId := 1;
     entries := [ {| entryId := 1; name := "foo";
                     values := [ {| value := OtherValue |};
                                 {| value := StyleableValue theme |} ] |} ] |}.

Definition styleableTypeMoreValues : ResourceTableType :=
  {| type := tStyleable; typeId := 2;
     entries := [ {| entryId := 0; name := "Theme";
                     values := [ {| value := StyleableValue theme |};
                                 {| value := StyleableValue themePermuted |};
                                 {| value := OtherValue |} ] |} ] |}.

(** A styleable type whose entry has no value. *)
Definition valuelessStyleableType : ResourceTableType :=
  {| type := tStyleable; typeId := 2;
     entries := [ {| entryId := 0; name := "Theme"; values := [] |} ] |}.

(** The table of package "app" with the given types. *)
Definition table (ts : list ResourceTableType) : ResourceTable :=
  {| getPackage := "app"; getPackageId := 1; types := ts |}.

(** An entry whose name is a Java keyword, and the same name mangled for
    the package "lib". *)
Definition classEntry : ResourceEntry :=
  {| entryId := 1; name := "class"; values := [] |}.

Definition libClassEntry : ResourceEntry :=
  {| entryId := 1; name := "lib$class"; values := [] |}.

(** Two attributes with one identifier, stored with the later name first. *)
Definition twins : Styleable :=
  {| st_entries := [ attr (makeId 1 1 5) "zoom"; attr (makeId 1 1 5) "alpha" ] |}.

(** A styleable with an attribute that has no identifier. *)
Definition broken : Styleable :=
  {| st_entries := [ attr (makeId 1 1 5) "zoom"; attr 0 "alpha" ] |}.

Definition final : Options := {| useFinal := true |}.
Definition mutable : Options := {| useFinal := false |}.

End Sample.

(** * Properties *)

(** ** Text *)

Lemma append_assoc (a b c : string) : (a ++ b) ++ c = a ++ (b ++ c).
Proof. induction a as [|ch a IH]; simpl; [reflexivity | now rewrite IH]. Qed.

Lemma append_nil_r (a : string) : a ++ "" = a.
Proof. induction a as [|ch a IH]; simpl; [reflexivity | now rewrite IH]. Qed.

Lemma emit_emit (s : state) (a b : string) : emit (emit s a) b = emit s (a ++ b).
Proof. unfold emit; simpl. now rewrite append_assoc. Qed.

Lemma emit_nil (s : state) : emit s "" = s.
Proof. destruct s; unfold emit; simpl. now rewrite append_nil_r. Qed.

(** ** Computations that only write *)

Lemma writes_write (text : string) : writes (write text) text.
Proof. intros s; reflexivity. Qed.

Lemma writes_ret : writes (ret tt) "".
Proof. intros s; unfold ret. now rewrite emit_nil. Qed.

Lemma writes_seq (c1 c2 : M unit) (t1 t2 : string) :
  writes c1 t1 -> writes c2 t2 -> writes (c1 ;; c2) (t1 ++ t2).
Proof.
  intros H1 H2 s. unfold bind. now rewrite H1, H2, emit_emit.
Qed.

Lemma writes_eq (c : M unit) (t1 t2 : string) :
  writes c t1 -> t1 = t2 -> writes c t2.
Proof. now intros H <-. Qed.

(** A counted loop over the positions of [full] writes the pieces of its
    iterations in order. *)
Lemma for_range_writes {A} (full : list A) (body : nat -> M unit)
      (piece : nat * A -> string) :
  (forall i a, nth_error full i = Some a -> writes (body i) (piece (i, a))) ->
  forall l pre, full = (pre ++ l)%list ->
    writes (for_range (List.length l) (List.length pre) body)
           (joined (map piece (combine (seq (List.length pre) (List.length l)) l))).
Proof.
  intros Hbody l; induction l as [|a l IH]; intros pre Hfull; simpl.
  - apply writes_ret.
  - apply writes_seq.
    + apply Hbody. subst full.
      rewrite nth_error_app2 by lia. now rewrite Nat.sub_diag.
    + specialize (IH (pre ++ [a])%list).
      rewrite length_app in IH; simpl in IH.
      rewrite Nat.add_1_r in IH. apply IH.
      now rewrite <- app_assoc.
Qed.

Lemma for_range_indexed {A} (full : list A) (body : nat -> M unit)
      (piece : nat * A -> string) :
  (forall i a, nth_error full i = Some a -> writes (body i) (piece (i, a))) ->
  writes (for_range (List.length full) 0 body) (joined (map piece (indexed full))).
Proof.
  intros Hbody. apply (for_range_writes full body piece Hbody full []).
  reflexivity.
Qed.

(** ** Loops that may return *)

Lemma for_each_app {A R} (pre post : list A) (body : A -> M (option R)) (s : state) :
  for_each (pre ++ post)%list body s =
  match for_each pre body s with
  | Returns None s' => for_each post body s'
  | other => other
  end.
Proof.
  revert s; induction pre as [|x pre IH]; intros s; simpl.
  - reflexivity.
  - unfold bind. destruct (body x s) as [[v|] s'|msg s']; try reflexivity.
    apply IH.
Qed.

Lemma for_each_ext {A B R} (l1 : list A) (l2 : list B)
      (body1 : A -> M (option R)) (body2 : B -> M (option R)) (rel : A -> B -> Prop) :
  (forall a b, rel a b -> forall s, body1 a s = body2 b s) ->
  Forall2 rel l1 l2 ->
  forall s, for_each l1 body1 s = for_each l2 body2 s.
Proof.
  intros Hbody Hl; induction Hl as [|a b l1 l2 Hab _ IH]; intros s; simpl.
  - reflexivity.
  - unfold bind. rewrite (Hbody a b Hab s).
    destruct (body2 b s) as [[v|] s'|msg s']; try reflexivity. apply IH.
Qed.

(** A loop that returned did so at some element, after going through the
    elements before it. *)
Lemma for_each_returned {A R} (l : list A) (body : A -> M (option R)) :
  forall (s s' : state) (v : R),
    for_each l body s = Returns (Some v) s' ->
    exists before a after s1,
      l = (before ++ a :: after)%list
      /\ for_each before body s = Returns None s1
      /\ body a s1 = Returns (Some v) s'.
Proof.
  induction l as [|x l IH]; intros s s' v; simpl.
  - discriminate.
  - unfold bind. destruct (body x s) as [[w|] s0|msg s0] eqn:Hx; try discriminate.
    + intros [= -> ->]. exists [], x, l, s. now repeat split.
    + intros Hrest.
      destruct (IH s0 s' v Hrest) as (before & a & after & s1 & -> & Hbefore & Ha).
      exists (x :: before), a, after, s1. repeat split; trivial.
      simpl. unfold bind. now rewrite Hx.
Qed.

(** ** Sorting *)

Section SortFacts.
Context {A : Type} (ltb : A -> A -> bool).

Lemma sort_insert_perm (a : A) (l : list A) :
  Permutation (sort_insert ltb a l) (a :: l).
Proof.
  induction l as [|b l IH]; simpl.
  - apply Permutation_refl.
  - destruct (ltb a b).
    + apply Permutation_refl.
    + eapply perm_trans; [apply perm_skip, IH | apply perm_swap].
Qed.

Lemma std_sort_perm (l : list A) : Permutation (std_sort ltb l) l.
Proof.
  induction l as [|a l IH]; simpl.
  - apply perm_nil.
  - eapply perm_trans; [apply sort_insert_perm | now apply perm_skip].
Qed.

Lemma std_sort_length (l : list A) :
  List.length (std_sort ltb l) = List.length l.
Proof. apply Permutation_length, std_sort_perm. Qed.

(** Whatever relation [R] the two answers of [ltb] establish between
    the images under [f], the sorted list is chained by it. *)
Section SortedBy.
Context {B : Type} (f : A -> B) (R : B -> B -> Prop).
Hypothesis ltb_true : forall a b, ltb a b = true -> R (f a) (f b).
Hypothesis ltb_false : forall a b, ltb a b = false -> R (f b) (f a).

Lemma sort_insert_sorted_by (a : A) (l : list A) :
  Sorted R (map f l) -> Sorted R (map f (sort_insert ltb a l)).
Proof.
  induction l as [|b l IH]; simpl; intros Hs.
  - repeat constructor.
  - destruct (ltb a b) eqn:Hab; simpl.
    + constructor; [exact Hs | constructor; now apply ltb_true].
    + inversion Hs as [|? ? Hs' Hhd]; subst.
      constructor; [now apply IH |].
      destruct l as [|c l]; simpl.
      * constructor. now apply ltb_false.
      * destruct (ltb a c); simpl; constructor.
        -- now apply ltb_false.
        -- now inversion Hhd.
Qed.

Lemma std_sort_sorted_by (l : list A) : Sorted R (map f (std_sort ltb l)).
Proof.
  induction l as [|a l IH]; simpl.
  - constructor.
  - now apply sort_insert_sorted_by.
Qed.
End SortedBy.

(** *** Strict total orders *)

Hypothesis ltb_irrefl : forall a, ltb a a = false.
Hypothesis ltb_trans : forall a b c,
    ltb a b = true -> ltb b c = true -> ltb a c = true.
Hypothesis ltb_total : forall a b,
    ltb a b = false -> ltb b a = false -> a = b.

Lemma ltb_asym (a b : A) : ltb a b = true -> ltb b a = false.
Proof.
  intros Hab. destruct (ltb b a) eqn:Hba; [|reflexivity].
  rewrite <- (ltb_irrefl a). symmetry. now apply ltb_trans with b.
Qed.

Lemma ascending_trans (a b c : A) :
  ascending ltb a b -> ascending ltb b c -> ascending ltb a c.
Proof.
  unfold ascending; intros Hab Hbc.
  destruct (ltb c a) eqn:Hca; [|reflexivity].
  destruct (ltb a b) eqn:Hlt.
  - rewrite <- Hbc. symmetry. now apply ltb_trans with a.
  - assert (a = b) by now apply ltb_total.
    subst b. congruence.
Qed.

Lemma ascending_antisym (a b : A) : ascending ltb a b -> ascending ltb b a -> a = b.
Proof. unfold ascending; intros Hab Hba. now apply ltb_total. Qed.

Lemma strongly_sorted_unique (l1 : list A) :
  forall l2, Permutation l1 l2 ->
             StronglySorted (ascending ltb) l1 -> StronglySorted (ascending ltb) l2 ->
             l1 = l2.
Proof.
  induction l1 as [|a l1 IH]; intros l2 Hp S1 S2.
  - apply Permutation_nil in Hp. now subst.
  - destruct l2 as [|b l2].
    + apply Permutation_sym, Permutation_nil in Hp. discriminate.
    + inversion S1 as [|? ? S1' F1]; inversion S2 as [|? ? S2' F2]; subst.
      assert (Heq : a = b).
      { assert (Hb : In b (a :: l1)).
        { apply Permutation_in with (b :: l2);
            [now apply Permutation_sym | now left]. }
        assert (Ha : In a (b :: l2)).
        { apply Permutation_in with (a :: l1); [exact Hp | now left]. }
        destruct Hb as [Hb|Hb]; [exact Hb |].
        destruct Ha as [Ha|Ha]; [now symmetry |].
        rewrite Forall_forall in F1, F2.
        apply ascending_antisym; [now apply F1 | now apply F2]. }
      subst b. f_equal. apply IH; trivial.
      now apply Permutation_cons_inv with a.
Qed.

(** A list has one ascending arrangement only. *)
Lemma sorted_unique (l1 l2 : list A) :
  Permutation l1 l2 -> Sorted (ascending ltb) l1 -> Sorted (ascending ltb) l2 -> l1 = l2.
Proof.
  intros Hp S1 S2.
  apply strongly_sorted_unique; trivial;
    apply Sorted_StronglySorted; trivial;
    intros x y z; apply ascending_trans.
Qed.

Lemma std_sort_sorted (l : list A) : Sorted (ascending ltb) (std_sort ltb l).
Proof.
  rewrite <- (map_id (std_sort ltb l)).
  apply std_sort_sorted_by; unfold ascending; intros a b H.
  - now apply ltb_asym.
  - exact H.
Qed.

(** [std_sort] answers what every correct sort answers. *)
Lemma std_sort_unique (l l' : list A) :
  Permutation l l' -> Sorted (ascending ltb) l' -> l' = std_sort ltb l.
Proof.
  intros Hp Hs. apply sorted_unique; trivial.
  - apply perm_trans with l; [now apply Permutation_sym |].
    apply Permutation_sym, std_sort_perm.
  - apply std_sort_sorted.
Qed.

Lemma std_sort_permutation (l l' : list A) :
  Permutation l l' -> std_sort ltb l = std_sort ltb l'.
Proof.
  intros Hp.
  apply (std_sort_unique l' (std_sort ltb l)); [| apply std_sort_sorted].
  apply perm_trans with l; [now apply Permutation_sym |].
  apply Permutation_sym, std_sort_perm.
Qed.
End SortFacts.

(** ** The styleable emitter *)

Lemma indexed_map {A B} (f : A -> B) (l : list A) :
  indexed (map f l) = map (fun p => (fst p, f (snd p))) (indexed l).
Proof.
  unfold indexed. rewrite length_map.
  generalize 0 as from. induction l as [|a l IH]; intros from; simpl.
  - reflexivity.
  - now rewrite IH.
Qed.

Lemma indexed_length {A} (l : list A) : List.length (indexed l) = List.length l.
Proof. unfold indexed. rewrite length_combine, length_seq. apply Nat.min_id. Qed.

Lemma combine_seq_nth_error {A} (l : list A) :
  forall from i a,
    nth_error l i = Some a ->
    nth_error (combine (seq from (List.length l)) l) i = Some (from + i, a).
Proof.
  induction l as [|b l IH]; intros from [|i] a; simpl; try discriminate.
  - intros [= ->]. now rewrite Nat.add_0_r.
  - intros H. rewrite (IH (S from) i a H). f_equal. f_equal. lia.
Qed.

Lemma indexed_nth_error {A} (l : list A) (i : nat) (a : A) :
  nth_error l i = Some a -> nth_error (indexed l) i = Some (i, a).
Proof. intros H. unfold indexed. now rewrite (combine_seq_nth_error l 0 i a H). Qed.

Ltac writes_steps :=
  repeat first [ apply writes_write | apply writes_ret | eapply writes_seq ].

Section VisitFacts.
Context `{C : Collaborators}.
Variable mTable : ResourceTable.
Variable mOptions : Options.

Lemma collectAttributes_valid (attrs : list Reference) (s : state) :
  forallb (fun attr => ResourceId_isValid (attr_id attr)
                       && ResourceNameRef_isValid (attr_name attr))%bool attrs = true ->
  collectAttributes attrs s
  = Returns (map (fun attr => (attr_id attr, attr_name attr)) attrs) s.
Proof.
  induction attrs as [|attr attrs IH]; simpl; intros Hv.
  - reflexivity.
  - apply andb_prop in Hv as [Ha Hv]. apply andb_prop in Ha as [Hid Hname].
    unfold bind, assert. rewrite Hid, Hname, (IH Hv). reflexivity.
Qed.

Lemma collectAttributes_invalid (attrs : list Reference) (s : state) :
  forallb (fun attr => ResourceId_isValid (attr_id attr)
                       && ResourceNameRef_isValid (attr_name attr))%bool attrs = false ->
  exists msg, collectAttributes attrs s = AssertionFailed msg s.
Proof.
  induction attrs as [|attr attrs IH]; simpl; intros Hv.
  - discriminate.
  - unfold bind, assert.
    destruct (ResourceId_isValid (attr_id attr)); [| eexists; reflexivity].
    destruct (ResourceNameRef_isValid (attr_name attr)); [| eexists; reflexivity].
    simpl in Hv. destruct (IH Hv) as [msg ->]. eexists; reflexivity.
Qed.

Lemma array_loop_writes (sorted : list (ResourceId * ResourceNameRef)) :
  writes
    (for_range (List.length sorted) 0 (fun i =>
       (if (i mod kAttribsPerLine =? 0)%nat
        then write endl ;; write "            "
        else ret tt) ;;
       match nth_error sorted i with
       | Some attr => write (ResourceId_print (fst attr))
       | None => ret tt
       end ;;
       if negb (i =? List.length sorted - 1)%nat then write ", " else ret tt))
    (joined (map (arrayElement (List.length (map fst sorted)))
                 (indexed (map fst sorted)))).
Proof.
  rewrite indexed_map, map_map, length_map.
  apply for_range_indexed with
    (piece := fun p => arrayElement (List.length sorted) (fst p, fst (snd p))).
  intros i a Hnth. rewrite Hnth. unfold arrayElement; cbn [fst snd].
  destruct (i mod kAttribsPerLine =? 0)%nat;
    destruct (i =? List.length sorted - 1)%nat; cbn [negb]; writes_steps.
Qed.

Lemma index_loop_writes (owner : string)
      (sorted : list (ResourceId * ResourceNameRef)) :
  writes
    (for_range (List.length sorted) 0 (fun i =>
       write "        " ;;
       write "public static" ;;
       write (if useFinal mOptions then " final" else "") ;;
       write " int " ;; write (transform owner) ;;
       match nth_error sorted i with
       | Some attr =>
           let itemName := snd attr in
           (if negb (ref_package itemName =? getPackage mTable)%string
            then write "_" ;; write (transform (ref_package itemName))
            else ret tt) ;;
           write "_" ;; write (transform (ref_entry itemName)) ;;
           write " = " ;; write (print_size_t i) ;; write ";" ;; write endl
       | None => ret tt
       end))
    (joined (map (indexDecl mTable mOptions owner) (indexed sorted))).
Proof.
  apply for_range_indexed. intros i a Hnth. rewrite Hnth.
  unfold indexDecl, constantDecl, indexSymbol; cbn [fst snd].
  destruct (ref_package (snd a) =? getPackage mTable)%string; cbn [negb].
  - eapply writes_eq; [writes_steps |].
    rewrite !append_assoc. reflexivity.
  - eapply writes_eq; [writes_steps |].
    rewrite !append_assoc. reflexivity.
Qed.

(** The part of [visit] after the attributes are collected and sorted. *)
Lemma visit_body_writes (owner : string)
      (sorted : list (ResourceId * ResourceNameRef)) :
  writes
    (write "        " ;;
     write "public static final int[] " ;; write (transform owner) ;; write " = {" ;;
     for_range (List.length sorted) 0 (fun i =>
       (if (i mod kAttribsPerLine =? 0)%nat
        then write endl ;; write "            "
        else ret tt) ;;
       match nth_error sorted i with
       | Some attr => write (ResourceId_print (fst attr))
       | None => ret tt
       end ;;
       if negb (i =? List.length sorted - 1)%nat then write ", " else ret tt) ;;
     write endl ;; write "        };" ;; write endl ;;
     for_range (List.length sorted) 0 (fun i =>
       write "        " ;;
       write "public static" ;;
       write (if useFinal mOptions then " final" else "") ;;
       write " int " ;; write (transform owner) ;;
       match nth_error sorted i with
       | Some attr =>
           let itemName := snd attr in
           (if negb (ref_package itemName =? getPackage mTable)%string
            then write "_" ;; write (transform (ref_package itemName))
            else ret tt) ;;
           write "_" ;; write (transform (ref_entry itemName)) ;;
           write " = " ;; write (print_size_t i) ;; write ";" ;; write endl
       | None => ret tt
       end))
    (arrayDecl (transform owner) (map fst sorted)
     ++ joined (map (indexDecl mTable mOptions owner) (indexed sorted))).
Proof.
  eapply writes_eq.
  - do 4 (eapply writes_seq; [apply writes_write |]).
    eapply writes_seq; [apply array_loop_writes |].
    do 3 (eapply writes_seq; [apply writes_write |]).
    apply index_loop_writes.
  - unfold arrayDecl. rewrite !append_assoc. reflexivity.
Qed.

(** What [visit] writes for a styleable whose attributes pass the
    assertions: the array of the sorted identifiers, then one index
    constant for each position. *)
Lemma visit_writes (styleable : Styleable) (owner : string) :
  attributesValid styleable = true ->
  writes (visit mTable mOptions styleable owner)
         (arrayDecl (transform owner) (map fst (sortedAttributes styleable))
          ++ joined (map (indexDecl mTable mOptions owner) (indexed (sortedAttributes styleable)))).
Proof.
  intros Hv s. unfold visit. unfold bind at 1.
  unfold attributesValid in Hv. rewrite (collectAttributes_valid _ _ Hv).
  exact (visit_body_writes owner (sortedAttributes styleable) s).
Qed.

(** When an attribute fails an assertion, [visit] stops before it writes
    anything. *)
Lemma visit_aborts (styleable : Styleable) (owner : string) (s : state) :
  attributesValid styleable = false ->
  exists msg, visit mTable mOptions styleable owner s = AssertionFailed msg s.
Proof.
  intros Hv. unfold visit. unfold bind at 1.
  destruct (collectAttributes_invalid _ s Hv) as [msg ->]. now exists msg.
Qed.
End VisitFacts.


(** ** Computations that write and answer *)

Lemma yields_ret {A} (v : A) : yields (ret v) v "".
Proof. intros s; unfold ret. now rewrite emit_nil. Qed.

Lemma yields_seq {A} (c1 : M unit) (c2 : M A) (v : A) (t1 t2 : string) :
  writes c1 t1 -> yields c2 v t2 -> yields (c1 ;; c2) v (t1 ++ t2).
Proof.
  intros H1 H2 s. unfold bind. now rewrite H1, H2, emit_emit.
Qed.

Lemma yields_eq {A} (c : M A) (v : A) (t1 t2 : string) :
  yields c v t1 -> t1 = t2 -> yields c v t2.
Proof. now intros H <-. Qed.

Lemma bind_writes {B} (c : M unit) (text : string) (k : unit -> M B) (s : state) :
  writes c text -> bind c k s = k tt (emit s text).
Proof. intros H. unfold bind. now rewrite H. Qed.

Ltac yields_steps :=
  repeat first [ apply yields_ret
               | eapply yields_seq; [solve [writes_steps] |] ].

Lemma emit_inj (s : state) (t1 t2 : string) : emit s t1 = emit s t2 -> t1 = t2.
Proof.
  unfold emit. intros [= H]. revert H.
  induction (out s) as [|c o IH]; simpl; [trivial |].
  intros [= H]. now apply IH.
Qed.

(** ** One iteration of the loop over the entries *)

Section EntryFacts.
Context `{C : Collaborators}.
Variable mTable : ResourceTable.
Variable mOptions : Options.
Variable package : string.

#[local] Abbreviation entryStep := (generateEntry mTable mOptions package (getPackageId mTable)).
#[local] Abbreviation entryTail := (emitEntry mTable mOptions package (getPackageId mTable)).

Lemma generateEntry_invalid_id type_ entry s :
  ResourceId_isValid (entryResourceId mTable type_ entry) = false ->
  entryStep type_ entry s = AssertionFailed "id.isValid()" s.
Proof.
  intros Hid. unfold generateEntry, bind, assert.
  unfold entryResourceId in Hid. now rewrite Hid.
Qed.

Lemma generateEntry_skips_mangled type_ entry plainName origin s :
  ResourceId_isValid (entryResourceId mTable type_ entry) = true ->
  unmangle (name entry) = Some (plainName, origin) ->
  origin <> package ->
  entryStep type_ entry s = Returns None s.
Proof.
  intros Hid Hun Hne. unfold generateEntry, bind, assert.
  unfold entryResourceId in Hid. rewrite Hid, Hun.
  destruct (String.eqb_spec package origin) as [->|_]; [now elim Hne | reflexivity].
Qed.

Lemma generateEntry_skips_plain type_ entry s :
  ResourceId_isValid (entryResourceId mTable type_ entry) = true ->
  unmangle (name entry) = None ->
  package <> getPackage mTable ->
  entryStep type_ entry s = Returns None s.
Proof.
  intros Hid Hun Hne. unfold generateEntry, bind, assert.
  unfold entryResourceId in Hid. rewrite Hid, Hun.
  destruct (String.eqb_spec package (getPackage mTable)) as [E|_];
    [now elim Hne | reflexivity].
Qed.

Lemma generateEntry_passes type_ entry plainName s :
  ResourceId_isValid (entryResourceId mTable type_ entry) = true ->
  passesFilter mTable package entry plainName ->
  entryStep type_ entry s = entryTail type_ entry plainName s.
Proof.
  intros Hid [Hun | (Hun & Hpkg & ->)]; unfold generateEntry, bind, assert;
    unfold entryResourceId in Hid; rewrite Hid, Hun.
  - now rewrite String.eqb_refl.
  - rewrite <- Hpkg. now rewrite String.eqb_refl.
Qed.

Lemma passesFilter_functional entry n1 n2 :
  passesFilter mTable package entry n1 -> passesFilter mTable package entry n2 ->
  n1 = n2.
Proof.
  intros [H1 | (H1 & _ & ->)] [H2 | (H2 & _ & ->)]; congruence.
Qed.

(** When no name passes the filter, the entry is skipped. *)
Lemma generateEntry_skips type_ entry s :
  ResourceId_isValid (entryResourceId mTable type_ entry) = true ->
  (forall plainName, ~ passesFilter mTable package entry plainName) ->
  entryStep type_ entry s = Returns None s.
Proof.
  intros Hid Hno.
  destruct (unmangle (name entry)) as [[plainName origin]|] eqn:Hun.
  - apply generateEntry_skips_mangled with plainName origin; trivial.
    intros ->. apply (Hno plainName). now left.
  - apply generateEntry_skips_plain; trivial.
    intros ->. apply (Hno (name entry)). right. now repeat split.
Qed.

Lemma emitEntry_reserved type_ entry plainName s :
  isValidSymbol plainName = false ->
  entryTail type_ entry plainName s
  = Returns (Some false)
      {| out := out s;
         mError := "invalid symbol name '" ++
                   ResourceNameRef_print {| ref_package := package;
                                            ref_type := type type_;
                                            ref_entry := plainName |} ++ "'" |}.
Proof. intros Hv. unfold emitEntry. rewrite Hv. reflexivity. Qed.

Lemma emitEntry_plain type_ entry plainName :
  isValidSymbol plainName = true ->
  ResourceType_eqb (type type_) kStyleable = false ->
  yields (entryTail type_ entry plainName) None
         (constantDecl (useFinal mOptions) (transform plainName)
                       (ResourceId_print (entryResourceId mTable type_ entry))).
Proof.
  intros Hv Hty. unfold emitEntry. rewrite Hv, Hty. cbn [negb].
  eapply yields_eq; [yields_steps |].
  unfold constantDecl, entryResourceId. rewrite ?append_assoc, ?append_nil_r.
  reflexivity.
Qed.

Lemma emitEntry_styleable type_ entry plainName front rest styleable :
  isValidSymbol plainName = true ->
  ResourceType_eqb (type type_) kStyleable = true ->
  values entry = front :: rest ->
  value front = StyleableValue styleable ->
  attributesValid styleable = true ->
  yields (entryTail type_ entry plainName) None
         (arrayDecl (transform plainName) (map fst (sortedAttributes styleable))
          ++ joined (map (indexDecl mTable mOptions plainName)
                         (indexed (sortedAttributes styleable)))).
Proof.
  intros Hv Hty Hvals Hfront Hattrs. unfold emitEntry.
  rewrite Hv, Hty, Hvals, Hfront. cbn [negb accept].
  eapply yields_eq.
  - eapply yields_seq; [apply writes_ret |].
    eapply yields_seq; [now apply visit_writes | apply yields_ret].
  - rewrite append_nil_r. reflexivity.
Qed.

Lemma emitEntry_other type_ entry plainName front rest s :
  isValidSymbol plainName = true ->
  ResourceType_eqb (type type_) kStyleable = true ->
  values entry = front :: rest ->
  value front = OtherValue ->
  entryTail type_ entry plainName s = Returns None s.
Proof.
  intros Hv Hty Hvals Hfront. unfold emitEntry.
  rewrite Hv, Hty, Hvals, Hfront. reflexivity.
Qed.

End EntryFacts.

(** ** The sample model is ordered *)

#[global] Instance sample_idOrder : @ResourceIdOrder Sample.model.
Proof.
  split; simpl.
  - intros a. apply N.ltb_irrefl.
  - intros a b c Hab Hbc. apply N.ltb_lt in Hab, Hbc. apply N.ltb_lt. lia.
  - intros a b Hab Hba. apply N.ltb_ge in Hab, Hba. lia.
Qed.

(** ** The transformation of names *)

Lemma transform_length (symbol : string) :
  String.length (transform symbol) = String.length symbol.
Proof. induction symbol as [|c symbol IH]; simpl; [reflexivity | now rewrite IH]. Qed.

Lemma transform_get (symbol : string) :
  forall i c, String.get i symbol = Some c ->
    String.get i (transform symbol)
    = Some (if (Ascii.eqb c "." || Ascii.eqb c "-")%bool then "_"%char else c).
Proof.
  induction symbol as [|d symbol IH]; intros [|i] c; simpl; try discriminate.
  - now intros [= ->].
  - apply IH.
Qed.

(** C5. [transform] keeps the length of a name, puts an underscore where
    the name has a dot or a dash and leaves every other character as it
    is; and the styleable emitter passes the owner's name (in the array
    and in every index constant), the attribute's package and the
    attribute's name through this one function before it writes them. *)
Theorem transform_replaces_dot_and_dash `{C : Collaborators} (symbol : string) :
  String.length (transform symbol) = String.length symbol
  /\ (forall i c, String.get i symbol = Some c ->
        (c = "."%char \/ c = "-"%char ->
         String.get i (transform symbol) = Some "_"%char)
        /\ (c <> "."%char -> c <> "-"%char ->
            String.get i (transform symbol) = Some c))
  /\ (forall mTable mOptions styleable s,
        attributesValid styleable = true ->
        let sorted := sortedAttributes styleable in
        visit mTable mOptions styleable symbol s
        = Returns tt
            (emit s
               (("        public static final int[] " ++ transform symbol ++ " = {" ++
                 joined (map (arrayElement (List.length (map fst sorted)))
                             (indexed (map fst sorted))) ++
                 endl ++ "        };" ++ endl) ++
                joined
                  (map (fun p : nat * (ResourceId * ResourceNameRef) =>
                          let itemName := snd (snd p) in
                          constantDecl (useFinal mOptions)
                            (transform symbol ++ "_" ++
                             (if (ref_package itemName =? getPackage mTable)%string
                              then ""
                              else transform (ref_package itemName) ++ "_") ++
                             transform (ref_entry itemName))
                            (print_size_t (fst p)))
                       (indexed sorted))))).
Proof.
  split; [apply transform_length |]. split.
  - intros i c Hget. rewrite (transform_get symbol i c Hget). split.
    + intros [-> | ->]; reflexivity.
    + intros Hdot Hdash.
      destruct (Ascii.eqb_spec c "."); [contradiction |].
      destruct (Ascii.eqb_spec c "-"); [contradiction |]. reflexivity.
  - intros mTable mOptions styleable s Hv sorted.
    exact (visit_writes mTable mOptions styleable symbol Hv s).
Qed.

Lemma transform_replaces_dot_and_dash_witness :
  transform "a.b-c_d$e" = "a_b_c_d$e"
  /\ String.length (transform "a.b-c_d$e") = 9
  /\ String.get 3 (transform "a.b-c_d$e") = Some "_"%char
  /\ String.get 4 (transform "a.b-c_d$e") = Some "c"%char.
Proof.
  split; [reflexivity |].
  destruct (@transform_replaces_dot_and_dash Sample.model Sample.collaborators
              "a.b-c_d$e") as (Hlen & Hget & _).
  split; [exact Hlen |]. split.
  - apply (Hget 3 "-"%char eq_refl). now right.
  - apply (Hget 4 "c"%char eq_refl); discriminate.
Defined.

(** ** Styleables *)

Lemma pair_ltb_true `{C : Collaborators} `{O : !ResourceIdOrder}
      (a b : ResourceId * ResourceNameRef) :
  pair_ltb a b = true -> ResourceId_le (fst a) (fst b).
Proof.
  unfold pair_ltb, std_pair_ltb, ResourceId_le, ascending. intros H.
  apply orb_prop in H as [H | H].
  - apply (ltb_asym ResourceId_ltb ResourceId_lt_irrefl ResourceId_lt_trans _ _ H).
  - apply andb_prop in H as [H _]. now apply negb_true_iff in H.
Qed.

Lemma pair_ltb_false `{C : Collaborators}
      (a b : ResourceId * ResourceNameRef) :
  pair_ltb a b = false -> ResourceId_le (fst b) (fst a).
Proof.
  unfold pair_ltb, std_pair_ltb, ResourceId_le, ascending. intros H.
  now apply orb_false_elim in H as [H _].
Qed.

Lemma sortedAttributes_ids_sorted `{C : Collaborators} `{O : !ResourceIdOrder}
      (styleable : Styleable) :
  Sorted ResourceId_le (map fst (sortedAttributes styleable)).
Proof.
  unfold sortedAttributes. apply std_sort_sorted_by.
  - apply pair_ltb_true.
  - apply pair_ltb_false.
Qed.

Lemma sortedAttributes_ids_perm `{C : Collaborators} (styleable : Styleable) :
  Permutation (map fst (sortedAttributes styleable))
              (map attr_id (st_entries styleable)).
Proof.
  unfold sortedAttributes, attributePairs.
  eapply perm_trans; [apply Permutation_map, std_sort_perm |].
  rewrite map_map. simpl. apply Permutation_refl.
Qed.

Lemma sortedAttributes_length `{C : Collaborators} (styleable : Styleable) :
  List.length (sortedAttributes styleable) = List.length (st_entries styleable).
Proof.
  unfold sortedAttributes, attributePairs.
  now rewrite std_sort_length, length_map.
Qed.

Lemma indexed_positions {A} (l : list A) :
  map fst (indexed l) = seq 0 (List.length l).
Proof.
  unfold indexed. generalize 0 as from.
  induction l as [|a l IH]; intros from; simpl; [reflexivity |].
  now rewrite IH.
Qed.

(** C6. The index constant of the attribute at position [i] of the sorted
    order is named by the transformed owner, an underscore, then - only
    when the attribute's package is not the table's own - the transformed
    package and an underscore, then the transformed attribute name; its
    value is [i]. The index constants follow the array, one line each, in
    the sorted order. *)
Theorem index_constant_name_and_value `{C : Collaborators}
        (mTable : ResourceTable) (mOptions : Options)
        (styleable : Styleable) (owner : string) (s : state) :
  attributesValid styleable = true ->
  exists lines : list string,
    visit mTable mOptions styleable owner s
    = Returns tt
        (emit s (arrayDecl (transform owner) (map fst (sortedAttributes styleable))
                 ++ joined lines))
    /\ List.length lines = List.length (st_entries styleable)
    /\ forall i attr,
        nth_error (sortedAttributes styleable) i = Some attr ->
        nth_error lines i
        = Some ("        public static" ++
                (if useFinal mOptions then " final" else "") ++ " int " ++
                (transform owner ++ "_" ++
                 (if (ref_package (snd attr) =? getPackage mTable)%string then ""
                  else transform (ref_package (snd attr)) ++ "_") ++
                 transform (ref_entry (snd attr))) ++
                " = " ++ print_size_t i ++ ";" ++ endl).
Proof.
  intros Hv.
  exists (map (indexDecl mTable mOptions owner) (indexed (sortedAttributes styleable))).
  split; [exact (visit_writes mTable mOptions styleable owner Hv s) |]. split.
  - now rewrite length_map, indexed_length, sortedAttributes_length.
  - intros i attr Hnth.
    rewrite nth_error_map, (indexed_nth_error _ i attr Hnth). reflexivity.
Qed.

Lemma index_constant_name_and_value_witness :
  exists lines : list string,
    visit (Sample.table []) Sample.mutable Sample.theme "My.Theme" Sample.start
    = Returns tt
        (emit Sample.start
           (arrayDecl "My_Theme" (map fst (sortedAttributes Sample.theme))
            ++ joined lines))
    /\ nth_error lines 1
       = Some ("        public static int My_Theme_android_text_size = 1;" ++ endl).
Proof.
  assert (Hv : attributesValid Sample.theme = true) by reflexivity.
  destruct (index_constant_name_and_value (Sample.table []) Sample.mutable
              Sample.theme "My.Theme" Sample.start Hv)
    as (lines & Hout & _ & Hline).
  exists lines. split; [exact Hout |].
  exact (Hline 1 (Sample.makeId 1 1 20,
                  {| ref_package := "android"; ref_type := Sample.tAttr;
                     ref_entry := "text-size" |}) eq_refl).
Defined.

(** C10. The array of a styleable is declared [public static final int[]]
    whatever [useFinal] says: the whole declaration of the array is the
    same text for every setting of the options, which show only in the
    index constants after it. *)
Theorem array_is_always_final `{C : Collaborators}
        (mTable : ResourceTable) (styleable : Styleable) (owner : string)
        (s : state) :
  attributesValid styleable = true ->
  exists elements : string,
  forall mOptions : Options,
    visit mTable mOptions styleable owner s
    = Returns tt
        (emit s
           (("        public static final int[] " ++ transform owner ++ " = {" ++
             elements ++ endl ++ "        };" ++ endl) ++
            joined (map (fun p : nat * (ResourceId * ResourceNameRef) =>
                           "        public static" ++
                           (if useFinal mOptions then " final" else "") ++
                           " int " ++ indexSymbol mTable owner (snd (snd p)) ++
                           " = " ++ print_size_t (fst p) ++ ";" ++ endl)
                        (indexed (sortedAttributes styleable))))).
Proof.
  intros Hv.
  exists (joined (map (arrayElement
                         (List.length (map fst (sortedAttributes styleable))))
                      (indexed (map fst (sortedAttributes styleable))))).
  intros mOptions.
  exact (visit_writes mTable mOptions styleable owner Hv s).
Qed.

Lemma array_is_always_final_witness :
  exists elements : string,
    visit (Sample.table []) Sample.final Sample.theme "Theme" Sample.start
    = Returns tt
        (emit Sample.start
           (("        public static final int[] Theme = {" ++
             elements ++ endl ++ "        };" ++ endl) ++
            ("        public static final int Theme_background = 0;" ++ endl ++
             "        public static final int Theme_android_text_size = 1;" ++ endl ++
             "        public static final int Theme_textColor = 2;" ++ endl)))
    /\ visit (Sample.table []) Sample.mutable Sample.theme "Theme" Sample.start
       = Returns tt
           (emit Sample.start
              (("        public static final int[] Theme = {" ++
                elements ++ endl ++ "        };" ++ endl) ++
               ("        public static int Theme_background = 0;" ++ endl ++
                "        public static int Theme_android_text_size = 1;" ++ endl ++
                "        public static int Theme_textColor = 2;" ++ endl))).
Proof.
  assert (Hv : attributesValid Sample.theme = true) by reflexivity.
  destruct (array_is_always_final (Sample.table []) Sample.theme "Theme"
              Sample.start Hv) as (elements & Hall).
  exists elements. split.
  - exact (Hall Sample.final).
  - exact (Hall Sample.mutable).
Defined.

(** ** The package filter *)

Lemma emitted_not_skipped (r : outcome (option bool)) (s : state) :
  emitted r s -> ~ skipped r s.
Proof.
  intros (text & Hne & ->) Hskip. unfold skipped in Hskip.
  injection Hskip as Hs. rewrite <- (emit_nil s) in Hs at 2.
  now apply emit_inj in Hs.
Qed.

Lemma constantDecl_nonempty (final : bool) (symbol val : string) :
  constantDecl final symbol val <> "".
Proof. unfold constantDecl. simpl. discriminate. Qed.

Lemma arrayDecl_nonempty `{RM : ResourceModel} (symbol : string)
      (ids : list ResourceId) (rest : string) :
  arrayDecl symbol ids ++ rest <> "".
Proof. unfold arrayDecl. simpl. discriminate. Qed.

(** An entry that passes the filter under a name outside the reserved set
    is emitted. *)
Lemma generateEntry_emits `{C : Collaborators}
      (mTable : ResourceTable) (mOptions : Options) (package : string)
      (type_ : ResourceTableType) (entry : ResourceEntry) (plainName : string)
      (s : state) :
  ResourceId_isValid (entryResourceId mTable type_ entry) = true ->
  styleableWellFormed type_ entry = true ->
  passesFilter mTable package entry plainName ->
  isValidSymbol plainName = true ->
  emitted (generateEntry mTable mOptions package (getPackageId mTable)
                         type_ entry s) s.
Proof.
  intros Hid Hwf Hpass Hvalid.
  rewrite (generateEntry_passes mTable mOptions package type_ entry plainName s Hid Hpass).
  unfold styleableWellFormed in Hwf.
  destruct (ResourceType_eqb (type type_) kStyleable) eqn:Hty.
  - destruct (values entry) as [|front rest] eqn:Hvals; [discriminate |].
    destruct (value front) as [styleable|] eqn:Hfront; [| discriminate].
    eexists. split; [| apply (emitEntry_styleable mTable mOptions package type_ entry
                               plainName front rest styleable); trivial].
    apply arrayDecl_nonempty.
  - eexists. split; [| apply (emitEntry_plain mTable mOptions package type_ entry
                               plainName); trivial].
    apply constantDecl_nonempty.
Qed.

(** ** The loops of [generateType] and [generate] *)

Section GenerateFacts.
Context `{C : Collaborators}.
Variable mTable : ResourceTable.
Variable mOptions : Options.
Variable package : string.

#[local] Abbreviation entryStep := (generateEntry mTable mOptions package (getPackageId mTable)).
#[local] Abbreviation classStep := (generateClass mTable mOptions package (getPackageId mTable)).

Lemma generateHeader_writes :
  writes (generateHeader package)
         ("/* AUTO-GENERATED FILE. DO NOT MODIFY." ++ endl ++
          " *" ++ endl ++
          " * This class was automatically generated by the" ++ endl ++
          " * aapt tool from the resource data it found. It" ++ endl ++
          " * should not be modified by hand." ++ endl ++
          " */" ++ endl ++ endl ++
          "package " ++ package ++ ";" ++ endl ++ endl).
Proof.
  unfold generateHeader. eapply writes_eq; [writes_steps |].
  rewrite !append_assoc. reflexivity.
Qed.

Lemma preamble_emit (s : state) :
  emit (emit (emit s ("/* AUTO-GENERATED FILE. DO NOT MODIFY." ++ endl ++
                      " *" ++ endl ++
                      " * This class was automatically generated by the" ++ endl ++
                      " * aapt tool from the resource data it found. It" ++ endl ++
                      " * should not be modified by hand." ++ endl ++
                      " */" ++ endl ++ endl ++
                      "package " ++ package ++ ";" ++ endl ++ endl))
             "public final class R {") endl
  = emit s (preamble package).
Proof.
  rewrite !emit_emit. unfold preamble. now rewrite ?append_assoc.
Qed.

Lemma classOpen_emit (s : state) (tag : string) :
  emit (emit (emit (emit s "    public static final class ") tag) " {") endl
  = emit s (classOpen tag).
Proof.
  rewrite !emit_emit. unfold classOpen. now rewrite ?append_assoc.
Qed.

Lemma generate_unfold (s : state) :
  generate mTable mOptions package s =
  match for_each (types mTable) classStep (emit s (preamble package)) with
  | Returns (Some ok) s' => Returns ok s'
  | Returns None s' => Returns true (emit s' ("}" ++ endl))
  | AssertionFailed msg s' => AssertionFailed msg s'
  end.
Proof.
  unfold generate.
  rewrite (bind_writes _ _ _ s generateHeader_writes).
  rewrite (bind_writes _ _ _ _ (writes_write _)).
  rewrite (bind_writes _ _ _ _ (writes_write _)).
  rewrite preamble_emit.
  unfold bind at 1.
  destruct (for_each (types mTable) classStep (emit s (preamble package)))
    as [[ok|] s'|msg s']; try reflexivity.
  rewrite (bind_writes _ _ _ _ (writes_write _)).
  rewrite (bind_writes _ _ _ _ (writes_write _)).
  now rewrite emit_emit.
Qed.

Lemma generateClass_unfold (type_ : ResourceTableType) (s : state) :
  classStep type_ s =
  match for_each (entries type_) (entryStep type_)
                 (emit s (classOpen (ResourceType_print (type type_)))) with
  | Returns (Some false) s' => Returns (Some false) s'
  | Returns _ s' => Returns None (emit s' classClose)
  | AssertionFailed msg s' => AssertionFailed msg s'
  end.
Proof.
  unfold generateClass.
  do 4 rewrite (bind_writes _ _ _ _ (writes_write _)).
  rewrite classOpen_emit.
  unfold generateType. unfold bind at 1 2.
  destruct (for_each (entries type_) (entryStep type_)
                     (emit s (classOpen (ResourceType_print (type type_)))))
    as [[[|]|] s'|msg s']; try reflexivity; cbn [negb ret];
    do 2 rewrite (bind_writes _ _ _ _ (writes_write _));
    now rewrite emit_emit.
Qed.

(** A loop whose iterations either go on or return [false] either goes
    through the whole list or returns [false] at some element. *)
Lemma for_each_total {A} (l : list A) (body : A -> M (option bool))
      (good bad : A -> Prop) :
  (forall a, In a l -> forall s,
        (exists s', body a s = Returns None s' /\ good a)
        \/ (exists s', body a s = Returns (Some false) s' /\ bad a)) ->
  forall s,
    (exists s', for_each l body s = Returns None s' /\ forall a, In a l -> good a)
    \/ (exists s' a, for_each l body s = Returns (Some false) s' /\ In a l /\ bad a).
Proof.
  induction l as [|x l IH]; intros Hbody s; simpl.
  - left. exists s. split; [reflexivity | intros a []].
  - unfold bind.
    destruct (Hbody x (or_introl eq_refl) s) as [(s1 & -> & Hgood) | (s1 & -> & Hbad)].
    + destruct (IH (fun a Ha => Hbody a (or_intror Ha)) s1)
        as [(s' & -> & Hall) | (s' & a & -> & Ha & Hbad)].
      * left. exists s'. split; [reflexivity |].
        intros a [<- | Ha]; [exact Hgood | now apply Hall].
      * right. exists s', a. repeat split; trivial. now right.
    + right. exists s1, x. repeat split; trivial. now left.
Qed.

Lemma generateEntry_total (type_ : ResourceTableType) (entry : ResourceEntry)
      (s : state) :
  entryAssertionsHold mTable type_ entry = true ->
  (exists s', entryStep type_ entry s = Returns None s' /\ entryValid mTable package entry)
  \/ (exists s', entryStep type_ entry s = Returns (Some false) s'
                 /\ entryReserved mTable package entry).
Proof.
  intros Hok. unfold entryAssertionsHold in Hok.
  apply andb_prop in Hok as [Hid Hvals].
  assert (Hcases : (exists plainName, passesFilter mTable package entry plainName)
                   \/ forall plainName, ~ passesFilter mTable package entry plainName).
  { unfold passesFilter.
    destruct (unmangle (name entry)) as [[plainName origin]|].
    - destruct (String.eqb_spec origin package) as [->|Hne].
      + left. exists plainName. now left.
      + right. intros n [[= _ E] | (E & _)]; [contradiction | discriminate].
    - destruct (String.eqb_spec package (getPackage mTable)) as [E|Hne].
      + left. exists (name entry). right. now repeat split.
      + right. intros n [E | (_ & E & _)]; [discriminate | contradiction]. }
  destruct Hcases as [(plainName & Hpass) | Hnone].
  - rewrite (generateEntry_passes mTable mOptions package type_ entry plainName s Hid Hpass).
    destruct (isValidSymbol plainName) eqn:Hvalid.
    + left.
      assert (Hall : entryValid mTable package entry).
      { intros n Hn.
        now rewrite (passesFilter_functional mTable package entry n plainName Hn Hpass). }
      destruct (ResourceType_eqb (type type_) kStyleable) eqn:Hty.
      * destruct (values entry) as [|front rest] eqn:Hv; [discriminate |].
        destruct (value front) as [styleable|] eqn:Hfront.
        -- eexists. split; [| exact Hall].
           apply (emitEntry_styleable mTable mOptions package type_ entry
                    plainName front rest styleable); trivial.
        -- exists s. split; [| exact Hall].
           apply (emitEntry_other mTable mOptions package type_ entry
                    plainName front rest); trivial.
      * eexists. split; [| exact Hall].
        apply (emitEntry_plain mTable mOptions package type_ entry plainName);
          trivial.
    + right. eexists. split.
      * apply emitEntry_reserved. exact Hvalid.
      * exists plainName. now split.
  - left. exists s. split.
    + now apply generateEntry_skips.
    + intros n Hn. elim (Hnone n Hn).
Qed.

Lemma generateClass_total (type_ : ResourceTableType) (s : state) :
  typeAssertionsHold mTable type_ = true ->
  (exists s', classStep type_ s = Returns None s'
              /\ forall entry, In entry (entries type_) -> entryValid mTable package entry)
  \/ (exists s', classStep type_ s = Returns (Some false) s'
                 /\ exists entry, In entry (entries type_) /\ entryReserved mTable package entry).
Proof.
  intros Hok. unfold typeAssertionsHold in Hok. rewrite forallb_forall in Hok.
  rewrite generateClass_unfold.
  destruct (for_each_total (entries type_) (entryStep type_)
              (entryValid mTable package) (entryReserved mTable package)
              (fun a Ha s0 => generateEntry_total type_ a s0 (Hok a Ha))
              (emit s (classOpen (ResourceType_print (type type_)))))
    as [(s' & -> & Hall) | (s' & a & -> & Ha & Hbad)].
  - left. eexists. split; [reflexivity | exact Hall].
  - right. eexists. split; [reflexivity |]. now exists a.
Qed.

Lemma generate_total (s : state) :
  assertionsHold mTable = true ->
  (exists s', generate mTable mOptions package s = Returns true s'
              /\ forall type_ entry, In type_ (types mTable) ->
                                     In entry (entries type_) -> entryValid mTable package entry)
  \/ (exists s', generate mTable mOptions package s = Returns false s'
                 /\ exists type_ entry, In type_ (types mTable)
                                        /\ In entry (entries type_)
                                        /\ entryReserved mTable package entry).
Proof.
  intros Hok. unfold assertionsHold in Hok. rewrite forallb_forall in Hok.
  rewrite generate_unfold.
  destruct (for_each_total (types mTable) classStep
              (fun type_ => forall entry, In entry (entries type_) ->
                                          entryValid mTable package entry)
              (fun type_ => exists entry, In entry (entries type_)
                                          /\ entryReserved mTable package entry)
              (fun a Ha s0 => generateClass_total a s0 (Hok a Ha))
              (emit s (preamble package)))
    as [(s' & -> & Hall) | (s' & a & -> & Ha & entry & He & Hbad)].
  - left. eexists. split; [reflexivity |].
    intros type_ entry Hty He. exact (Hall type_ Hty entry He).
  - right. eexists. split; [reflexivity |]. now exists a, entry.
Qed.

End GenerateFacts.

(** ** Reserved names *)

(** C4, as amended. Take the first entry, in the order of the iteration,
    that passes the package filter under a name of the reserved set: the
    types before its type and, in its type, the entries before it went
    through without failure. Then [generate] answers [false], the error is
    "invalid symbol name" with the printed reference made of the requested
    package, the type and the plain name, and the stream is as it was when
    the iteration reached the entry: nothing of a later entry or of a
    later type is on it. For a table that passes the generator's
    assertions, [generate] answers [true] exactly when no entry passes the
    filter under a reserved name; and when some entry does, there is such
    a first entry, at which the run ends as described. *)
Theorem reserved_symbol_stops_generation `{C : Collaborators}
        (mTable : ResourceTable) (mOptions : Options) (package : string)
        (s : state) :
  let stopsAt typesBefore type_ before entry plainName s1 s2 :=
    for_each typesBefore
             (generateClass mTable mOptions package (getPackageId mTable))
             (emit s (preamble package)) = Returns None s1
    /\ for_each before
                (generateEntry mTable mOptions package (getPackageId mTable) type_)
                (emit s1 (classOpen (ResourceType_print (type type_))))
       = Returns None s2
    /\ ResourceId_isValid (entryResourceId mTable type_ entry) = true
    /\ passesFilter mTable package entry plainName
    /\ isValidSymbol plainName = false in
  (forall typesBefore type_ typesAfter before entry after plainName s1 s2,
      types mTable = (typesBefore ++ type_ :: typesAfter)%list ->
      entries type_ = (before ++ entry :: after)%list ->
      stopsAt typesBefore type_ before entry plainName s1 s2 ->
      generate mTable mOptions package s
      = Returns false
          {| out := out s2;
             mError := "invalid symbol name '" ++
                       ResourceNameRef_print {| ref_package := package;
                                                ref_type := type type_;
                                                ref_entry := plainName |} ++
                       "'" |})
  /\ (assertionsHold mTable = true ->
      exists ok s',
        generate mTable mOptions package s = Returns ok s'
        /\ (ok = true <->
            forall type_ entry plainName,
              In type_ (types mTable) -> In entry (entries type_) ->
              passesFilter mTable package entry plainName ->
              isValidSymbol plainName = true))
  /\ (assertionsHold mTable = true ->
      (exists type_ entry plainName,
          In type_ (types mTable) /\ In entry (entries type_)
          /\ passesFilter mTable package entry plainName
          /\ isValidSymbol plainName = false) ->
      exists typesBefore type_ typesAfter before entry after plainName s1 s2,
        types mTable = (typesBefore ++ type_ :: typesAfter)%list
        /\ entries type_ = (before ++ entry :: after)%list
        /\ stopsAt typesBefore type_ before entry plainName s1 s2).
Proof.
  intros stopsAt. split; [| split].
  - intros typesBefore type_ typesAfter before entry after plainName s1 s2
           Htypes Hentries (Hbefore_types & Hbefore & Hid & Hpass & Hreserved).
    rewrite generate_unfold, Htypes, for_each_app, Hbefore_types.
    simpl. unfold bind at 1.
    rewrite generateClass_unfold, Hentries, for_each_app, Hbefore.
    simpl. unfold bind at 1.
    rewrite (generateEntry_passes mTable mOptions package type_ entry plainName
               s2 Hid Hpass).
    rewrite (emitEntry_reserved mTable mOptions package type_ entry plainName
               s2 Hreserved).
    reflexivity.
  - intros Hok.
    destruct (generate_total mTable mOptions package s Hok)
      as [(s' & Hrun & Hall) | (s' & Hrun & type_ & entry & Hty & He & n & Hpass & Hbad)].
    + exists true, s'. split; [exact Hrun |]. split; [| reflexivity].
      intros _ type_ entry plainName Hty He Hpass.
      now apply (Hall type_ entry Hty He).
    + exists false, s'. split; [exact Hrun |]. split; [discriminate |].
      intros Hall. rewrite (Hall type_ entry n Hty He Hpass) in Hbad.
      discriminate.
  - intros Hok (type0 & entry0 & n0 & Hty0 & He0 & Hpass0 & Hbad0).
    destruct (generate_total mTable mOptions package s Hok)
      as [(s' & Hrun & Hall) | (s' & Hrun & _)].
    { rewrite (Hall type0 entry0 Hty0 He0 n0 Hpass0) in Hbad0. discriminate. }
    rewrite generate_unfold in Hrun.
    destruct (for_each (types mTable) _ (emit s (preamble package)))
      as [[ok|] s0|msg s0] eqn:Htypes; try discriminate.
    injection Hrun as -> ->.
    destruct (for_each_returned _ _ _ _ _ Htypes)
      as (typesBefore & type_ & typesAfter & s1 & Hsplit & Hbefore_types & Hclass).
    rewrite generateClass_unfold in Hclass.
    destruct (for_each (entries type_) _ _) as [[[|]|] s2'|msg s2'] eqn:Hentries;
      try discriminate.
    destruct (for_each_returned _ _ _ _ _ Hentries)
      as (before & entry & after & s2 & Hsplit' & Hbefore & Hentry).
    assert (Hin : In type_ (types mTable)).
    { rewrite Hsplit. apply in_or_app. right. now left. }
    assert (Hin' : In entry (entries type_)).
    { rewrite Hsplit'. apply in_or_app. right. now left. }
    assert (Hhold : entryAssertionsHold mTable type_ entry = true).
    { unfold assertionsHold in Hok. rewrite forallb_forall in Hok.
      specialize (Hok type_ Hin). unfold typeAssertionsHold in Hok.
      rewrite forallb_forall in Hok. now apply Hok. }
    destruct (generateEntry_total mTable mOptions package type_ entry s2 Hhold)
      as [(s3 & Hnone & _) | (s3 & _ & plainName & Hpass & Hbad)].
    { rewrite Hnone in Hentry. discriminate. }
    exists typesBefore, type_, typesAfter, before, entry, after, plainName, s1, s2.
    unfold stopsAt. repeat split; trivial.
    unfold entryAssertionsHold in Hhold. now apply andb_prop in Hhold as [Hid _].
Qed.

Lemma reserved_symbol_stops_generation_witness :
  generate (Sample.table [Sample.idType [(1%N, "foo"); (2%N, "class"); (3%N, "bar")];
                          Sample.styleableType])
           Sample.final "app" Sample.start
  = Returns false
      {| out := preamble "app" ++ classOpen "id" ++
                "        public static final int foo = 0x01010001;" ++ endl;
         mError := "invalid symbol name 'app:id/class'" |}.
Proof.
  destruct (reserved_symbol_stops_generation
              (Sample.table [Sample.idType [(1%N, "foo"); (2%N, "class"); (3%N, "bar")];
                             Sample.styleableType])
              Sample.final "app" Sample.start) as (Hstop & _).
  cbv zeta in Hstop.
  apply (Hstop []
               (Sample.idType [(1%N, "foo"); (2%N, "class"); (3%N, "bar")])
               [Sample.styleableType]
               [ {| entryId := 1; name := "foo"; values := [] |} ]
               {| entryId := 2; name := "class"; values := [] |}
               [ {| entryId := 3; name := "bar"; values := [] |} ]
               "class"
               (emit Sample.start (preamble "app"))
               {| out := preamble "app" ++ classOpen "id" ++
                         "        public static final int foo = 0x01010001;" ++ endl;
                  mError := "" |}).
  - reflexivity.
  - reflexivity.
  - split; [reflexivity |]. split; [reflexivity |]. split; [reflexivity |].
    split; [| reflexivity]. right. repeat split; reflexivity.
Defined.

(** C4, as the specification has it, fails on an entry that the package
    filter skips: in the table of "app", the entry "lib$class" has the
    plain name "class", a Java keyword, and [generate] for "app" succeeds
    all the same. *)
Lemma skipped_reserved_entry_succeeds :
  In (Sample.idType [(1%N, "lib$class")])
     (types (Sample.table [Sample.idType [(1%N, "lib$class")]]))
  /\ In Sample.libClassEntry (entries (Sample.idType [(1%N, "lib$class")]))
  /\ unmangle (name Sample.libClassEntry) = Some ("class", "lib")
  /\ isValidSymbol "class" = false
  /\ generate (Sample.table [Sample.idType [(1%N, "lib$class")]])
              Sample.final "app" Sample.start
     = Returns true
         {| out := preamble "app" ++ classOpen "id" ++ classClose ++ "}" ++ endl;
            mError := "" |}.
Proof.
  split; [now left |]. split; [now left |]. repeat split; reflexivity.
Qed.

(** ** Totality *)

(** C8. On a table that meets what the generator asserts - every entry's
    identifier is valid, every entry of the styleable type has a value,
    and the attributes of the styleable it visits have valid identifiers
    and names - no assertion fails: [generate] returns, with [true] or
    [false], for every requested package and from every state. *)
Theorem no_assertion_fails `{C : Collaborators}
        (mTable : ResourceTable) (mOptions : Options) :
  assertionsHold mTable = true ->
  forall (package : string) (s : state),
  exists ok s', generate mTable mOptions package s = Returns ok s'.
Proof.
  intros Hok package s.
  destruct (generate_total mTable mOptions package s Hok)
    as [(s' & Hrun & _) | (s' & Hrun & _)]; eauto.
Qed.

Lemma no_assertion_fails_witness :
  exists ok s',
    generate (Sample.table [Sample.idType [(1%N, "foo"); (2%N, "lib$bar")];
                            Sample.styleableType])
             Sample.mutable "app" Sample.start
    = Returns ok s'.
Proof.
  apply (no_assertion_fails
           (Sample.table [Sample.idType [(1%N, "foo"); (2%N, "lib$bar")];
                          Sample.styleableType])
           Sample.mutable).
  reflexivity.
Defined.

(** ** The [useFinal] option *)

(** C7. For a table with a single type, other than styleable, holding a
    single entry that passes the package filter under a name outside the
    reserved set, [generate] succeeds and writes the banner, the class [R],
    the nested class of the type and one declaration in it, which reads
    [public static final int <name> = <id>;] when [useFinal] is set and
    [public static int <name> = <id>;] when it is not. The index constants
    of a styleable carry the modifier under the same condition. *)
Theorem useFinal_controls_final_modifier `{C : Collaborators}
        (mTable : ResourceTable) (mOptions : Options) (package : string)
        (type_ : ResourceTableType) (entry : ResourceEntry)
        (plainName : string) (s : state) :
  types mTable = [type_] ->
  entries type_ = [entry] ->
  ResourceType_eqb (type type_) kStyleable = false ->
  ResourceId_isValid (entryResourceId mTable type_ entry) = true ->
  passesFilter mTable package entry plainName ->
  isValidSymbol plainName = true ->
  let id := ResourceId_print (entryResourceId mTable type_ entry) in
  let output (declaration : string) :=
    Returns true
      (emit s (preamble package ++
               classOpen (ResourceType_print (type type_)) ++
               declaration ++
               classClose ++ "}" ++ endl)) in
  (useFinal mOptions = true ->
   generate mTable mOptions package s
   = output ("        public static final int " ++ transform plainName ++
             " = " ++ id ++ ";" ++ endl))
  /\ (useFinal mOptions = false ->
      generate mTable mOptions package s
      = output ("        public static int " ++ transform plainName ++
                " = " ++ id ++ ";" ++ endl))
  /\ (forall styleable owner s0,
         attributesValid styleable = true ->
         exists lines : list string,
           visit mTable mOptions styleable owner s0
           = Returns tt
               (emit s0 (arrayDecl (transform owner)
                                   (map fst (sortedAttributes styleable))
                         ++ joined lines))
           /\ forall i attr,
               nth_error (sortedAttributes styleable) i = Some attr ->
               (useFinal mOptions = true ->
                nth_error lines i
                = Some ("        public static final int " ++
                        indexSymbol mTable owner (snd attr) ++
                        " = " ++ print_size_t i ++ ";" ++ endl))
               /\ (useFinal mOptions = false ->
                   nth_error lines i
                   = Some ("        public static int " ++
                           indexSymbol mTable owner (snd attr) ++
                           " = " ++ print_size_t i ++ ";" ++ endl))).
Proof.
  intros Htypes Hentries Hty Hid Hpass Hvalid id output.
  assert (Hrun : generate mTable mOptions package s
                 = output (constantDecl (useFinal mOptions) (transform plainName) id)).
  { rewrite generate_unfold, Htypes. simpl. unfold bind at 1.
    rewrite generateClass_unfold, Hentries. simpl. unfold bind at 1.
    rewrite (generateEntry_passes mTable mOptions package type_ entry plainName
               _ Hid Hpass).
    rewrite (emitEntry_plain mTable mOptions package type_ entry plainName
               Hvalid Hty).
    unfold ret, output. rewrite !emit_emit. reflexivity. }
  split; [| split].
  - intros Hfinal. rewrite Hrun, Hfinal. reflexivity.
  - intros Hfinal. rewrite Hrun, Hfinal. reflexivity.
  - intros styleable owner s0 Hv.
    exists (map (indexDecl mTable mOptions owner) (indexed (sortedAttributes styleable))).
    split; [exact (visit_writes mTable mOptions styleable owner Hv s0) |].
    intros i attr Hnth.
    rewrite nth_error_map, (indexed_nth_error _ i attr Hnth).
    unfold indexDecl, constantDecl; cbn [option_map fst snd].
    split; intros ->; reflexivity.
Qed.

Lemma useFinal_controls_final_modifier_witness :
  generate (Sample.table [Sample.idType [(1%N, "foo")]])
           Sample.final "app" Sample.start
  = Returns true
      (emit Sample.start
            (preamble "app" ++ classOpen "id" ++
             ("        public static final int foo = 0x01010001;" ++ endl) ++
             classClose ++ "}" ++ endl))
  /\ generate (Sample.table [Sample.idType [(1%N, "foo")]])
              Sample.mutable "app" Sample.start
     = Returns true
         (emit Sample.start
               (preamble "app" ++ classOpen "id" ++
                ("        public static int foo = 0x01010001;" ++ endl) ++
                classClose ++ "}" ++ endl)).
Proof.
  assert (Hpass : passesFilter (Sample.table [Sample.idType [(1%N, "foo")]])
                               "app"
                               {| entryId := 1; name := "foo"; values := [] |}
                               "foo")
    by (right; repeat split; reflexivity).
  split.
  - destruct (useFinal_controls_final_modifier
                (Sample.table [Sample.idType [(1%N, "foo")]]) Sample.final "app"
                (Sample.idType [(1%N, "foo")])
                {| entryId := 1; name := "foo"; values := [] |} "foo"
                Sample.start eq_refl eq_refl eq_refl eq_refl Hpass eq_refl)
      as (Hfinal & _).
    exact (Hfinal eq_refl).
  - destruct (useFinal_controls_final_modifier
                (Sample.table [Sample.idType [(1%N, "foo")]]) Sample.mutable "app"
                (Sample.idType [(1%N, "foo")])
                {| entryId := 1; name := "foo"; values := [] |} "foo"
                Sample.start eq_refl eq_refl eq_refl eq_refl Hpass eq_refl)
      as (_ & Hmutable & _).
    exact (Hmutable eq_refl).
Defined.

(** ** What the generator reads of the values *)

Section SameSymbolsFacts.
Context `{C : Collaborators}.
Variables t1 t2 : ResourceTable.
Variable mOptions : Options.
Variable package : string.
Variable packageId : N.
Hypothesis same_package : getPackage t1 = getPackage t2.

Lemma visit_same (styleable : Styleable) (entryName : string) (s : state) :
  visit t1 mOptions styleable entryName s = visit t2 mOptions styleable entryName s.
Proof. unfold visit. now rewrite same_package. Qed.

Lemma emitEntry_same (type1 type2 : ResourceTableType)
      (e1 e2 : ResourceEntry) (plainName : string) (s : state) :
  type type1 = type type2 -> typeId type1 = typeId type2 ->
  sameEntry (ResourceType_eqb (type type1) kStyleable) e1 e2 ->
  emitEntry t1 mOptions package packageId type1 e1 plainName s
  = emitEntry t2 mOptions package packageId type2 e2 plainName s.
Proof.
  intros Htype HtypeId (Hid & Hname & Hvalues).
  unfold emitEntry. rewrite <- Htype, <- HtypeId, <- Hid.
  destruct (negb (isValidSymbol plainName)); [reflexivity |].
  destruct (ResourceType_eqb (type type1) kStyleable); [| reflexivity].
  specialize (Hvalues eq_refl).
  destruct (values e1) as [|f1 r1], (values e2) as [|f2 r2];
    try discriminate Hvalues; [reflexivity |].
  injection Hvalues as <-.
  unfold bind, assert; cbn [negb].
  destruct (value f1) as [styleable|]; cbn [accept]; [| reflexivity].
  now rewrite visit_same.
Qed.

Lemma generateEntry_same (type1 type2 : ResourceTableType)
      (e1 e2 : ResourceEntry) (s : state) :
  type type1 = type type2 -> typeId type1 = typeId type2 ->
  sameEntry (ResourceType_eqb (type type1) kStyleable) e1 e2 ->
  generateEntry t1 mOptions package packageId type1 e1 s
  = generateEntry t2 mOptions package packageId type2 e2 s.
Proof.
  intros Htype HtypeId Hsame.
  pose proof Hsame as (Hid & Hname & _).
  unfold generateEntry.
  rewrite <- same_package, <- HtypeId, <- Hid, <- Hname.
  unfold bind.
  destruct (assert _ _ s) as [[] s0|]; [| reflexivity].
  destruct (unmangle (name e1)) as [[n origin]|].
  - destruct (negb (package =? origin)%string); [reflexivity |].
    now apply emitEntry_same.
  - destruct (negb (package =? getPackage t1)%string); [reflexivity |].
    rewrite Hname. now apply emitEntry_same.
Qed.

Lemma generateType_same (type1 type2 : ResourceTableType) (s : state) :
  sameType type1 type2 ->
  generateType t1 mOptions package packageId type1 s
  = generateType t2 mOptions package packageId type2 s.
Proof.
  intros (Htype & HtypeId & Hentries).
  unfold generateType, bind.
  rewrite (for_each_ext (entries type1) (entries type2) _
             (generateEntry t2 mOptions package packageId type2)
             (sameEntry (ResourceType_eqb (type type1) kStyleable))); trivial.
  intros a b Hab s0. now apply generateEntry_same.
Qed.

Lemma generateClass_same (type1 type2 : ResourceTableType) (s : state) :
  sameType type1 type2 ->
  generateClass t1 mOptions package packageId type1 s
  = generateClass t2 mOptions package packageId type2 s.
Proof.
  intros Hsame. pose proof Hsame as (Htype & _).
  unfold generateClass. rewrite <- Htype.
  unfold bind, write. cbv beta iota.
  now rewrite (generateType_same type1 type2 _ Hsame).
Qed.

End SameSymbolsFacts.

(** C9. Two tables with the same package, the same types and, entry by
    entry, the same identifiers and names, which may differ in every
    value of an entry outside the styleable type and in every value but
    the first of an entry of the styleable type, get the same run of
    [generate]: the same text, the same answer, the same error. *)
Theorem only_first_styleable_value_matters `{C : Collaborators}
        (t1 t2 : ResourceTable) (mOptions : Options) (package : string)
        (s : state) :
  sameSymbols t1 t2 ->
  generate t1 mOptions package s = generate t2 mOptions package s.
Proof.
  intros (Hpkg & Hpid & Htypes).
  unfold generate. rewrite <- Hpid. unfold bind.
  destruct (generateHeader package s) as [[] s1|]; [| reflexivity].
  destruct (write "public final class R {" s1) as [[] s2|]; [| reflexivity].
  destruct (write endl s2) as [[] s3|]; [| reflexivity].
  rewrite (for_each_ext (types t1) (types t2) _
             (generateClass t2 mOptions package (getPackageId t1)) sameType);
    trivial.
  intros a b Hab s0. now apply generateClass_same.
Qed.

Lemma only_first_styleable_value_matters_witness :
  generate (Sample.table [Sample.idType [(1%N, "foo")]; Sample.styleableType])
           Sample.final "app" Sample.start
  = generate (Sample.table [Sample.idTypeWithValues; Sample.styleableTypeMoreValues])
             Sample.final "app" Sample.start.
Proof.
  apply (only_first_styleable_value_matters
           (Sample.table [Sample.idType [(1%N, "foo")]; Sample.styleableType])
           (Sample.table [Sample.idTypeWithValues; Sample.styleableTypeMoreValues])
           Sample.final "app" Sample.start).
  split; [reflexivity |]. split; [reflexivity |].
  constructor.
  - split; [reflexivity |]. split; [reflexivity |].
    constructor; [| constructor].
    split; [reflexivity |]. split; [reflexivity |]. discriminate.
  - constructor; [| constructor].
    split; [reflexivity |]. split; [reflexivity |].
    constructor; [| constructor].
    split; [reflexivity |]. split; reflexivity.
Defined.

(** ** The order of pairs, and the storage order of a styleable *)

Section PairOrder.
Context {A B : Type} (ltbA : A -> A -> bool) (ltbB : B -> B -> bool).
Hypothesis A_irrefl : forall a, ltbA a a = false.
Hypothesis A_trans : forall a b c, ltbA a b = true -> ltbA b c = true -> ltbA a c = true.
Hypothesis A_total : forall a b, ltbA a b = false -> ltbA b a = false -> a = b.
Hypothesis B_irrefl : forall a, ltbB a a = false.
Hypothesis B_trans : forall a b c, ltbB a b = true -> ltbB b c = true -> ltbB a c = true.
Hypothesis B_total : forall a b, ltbB a b = false -> ltbB b a = false -> a = b.

(** Under a total order of the first components, [std::pair]'s order is
    the lexicographic one. *)
Lemma std_pair_ltb_lex (a b : A * B) :
  std_pair_ltb ltbA ltbB a b = true <->
  ltbA (fst a) (fst b) = true \/ (fst a = fst b /\ ltbB (snd a) (snd b) = true).
Proof.
  unfold std_pair_ltb. split.
  - intros H. apply orb_prop in H as [H | H]; [now left |].
    apply andb_prop in H as [Hba Hab]. apply negb_true_iff in Hba.
    destruct (ltbA (fst a) (fst b)) eqn:Hlt; [now left |].
    right. split; [now apply A_total | exact Hab].
  - intros [H | [E H]].
    + now rewrite H.
    + rewrite E, A_irrefl, H. reflexivity.
Qed.

Lemma std_pair_ltb_irrefl (a : A * B) : std_pair_ltb ltbA ltbB a a = false.
Proof. unfold std_pair_ltb. now rewrite A_irrefl, B_irrefl. Qed.

Lemma std_pair_ltb_trans (a b c : A * B) :
  std_pair_ltb ltbA ltbB a b = true -> std_pair_ltb ltbA ltbB b c = true ->
  std_pair_ltb ltbA ltbB a c = true.
Proof.
  rewrite !std_pair_ltb_lex.
  intros [Hab | [Eab Hab]] [Hbc | [Ebc Hbc]].
  - left. now apply A_trans with (fst b).
  - left. now rewrite <- Ebc.
  - left. now rewrite Eab.
  - right. split; [congruence | now apply B_trans with (snd b)].
Qed.

Lemma std_pair_ltb_total (a b : A * B) :
  std_pair_ltb ltbA ltbB a b = false -> std_pair_ltb ltbA ltbB b a = false ->
  a = b.
Proof.
  unfold std_pair_ltb. intros Hab Hba.
  apply orb_false_elim in Hab as [Hab1 Hab2].
  apply orb_false_elim in Hba as [Hba1 Hba2].
  rewrite Hba1 in Hab2. rewrite Hab1 in Hba2. simpl in Hab2, Hba2.
  destruct a as [a1 a2], b as [b1 b2]; simpl in *.
  f_equal; [now apply A_total | now apply B_total].
Qed.
End PairOrder.

(** When both components are totally ordered, [visit] writes the same text
    for every storage order of the attributes: the sorted vector itself is
    the same, names included. *)
Lemma visit_permutation `{C : Collaborators}
      `{O : !ResourceIdOrder} `{NO : !ResourceNameRefOrder}
      (mTable : ResourceTable) (mOptions : Options)
      (styleable styleable' : Styleable) (owner : string) (s : state) :
  attributesValid styleable = true ->
  Permutation (st_entries styleable) (st_entries styleable') ->
  visit mTable mOptions styleable' owner s = visit mTable mOptions styleable owner s.
Proof.
  intros Hv Hperm.
  assert (Hv' : attributesValid styleable' = true).
  { unfold attributesValid in *. rewrite forallb_forall in *.
    intros x Hx. apply Hv. apply Permutation_in with (st_entries styleable'); trivial.
    now apply Permutation_sym. }
  rewrite (visit_writes mTable mOptions styleable owner Hv s).
  rewrite (visit_writes mTable mOptions styleable' owner Hv' s).
  assert (E : sortedAttributes styleable' = sortedAttributes styleable).
  { unfold sortedAttributes, pair_ltb. apply std_sort_permutation.
    - apply std_pair_ltb_irrefl;
        [apply ResourceId_lt_irrefl | apply ResourceNameRef_lt_irrefl].
    - apply std_pair_ltb_trans;
        [apply ResourceId_lt_irrefl | apply ResourceId_lt_trans
        | apply ResourceId_lt_total | apply ResourceNameRef_lt_trans].
    - apply std_pair_ltb_total;
        [apply ResourceId_lt_total | apply ResourceNameRef_lt_total].
    - unfold attributePairs. apply Permutation_map. now apply Permutation_sym. }
  now rewrite E.
Qed.

Lemma string_ltb_irrefl (a : string) : String.ltb a a = false.
Proof.
  unfold String.ltb.
  pose proof (proj2 (String_as_OT.cmp_eq a a) eq_refl) as H.
  unfold String_as_OT.cmp in H. now rewrite H.
Qed.

Lemma string_ltb_trans (a b c : string) :
  String.ltb a b = true -> String.ltb b c = true -> String.ltb a c = true.
Proof.
  unfold String.ltb. intros Hab Hbc.
  destruct (String.compare a b) eqn:Eab; try discriminate.
  destruct (String.compare b c) eqn:Ebc; try discriminate.
  assert (Hac : String.compare a c = Lt).
  { apply String_as_OT.cmp_lt.
    apply String_as_OT.lt_trans with b;
      now apply String_as_OT.cmp_lt. }
  now rewrite Hac.
Qed.

Lemma string_ltb_total (a b : string) :
  String.ltb a b = false -> String.ltb b a = false -> a = b.
Proof.
  unfold String.ltb. intros Hab Hba.
  rewrite String.compare_antisym in Hba.
  destruct (String.compare a b) eqn:E; simpl in *; try discriminate.
  now apply String.compare_eq_iff.
Qed.

#[global] Instance sample_nameOrder : @ResourceNameRefOrder Sample.model Sample.collaborators.
Proof.
  assert (Hirr : forall a : nat, (a <? a)%nat = false) by apply Nat.ltb_irrefl.
  assert (Htr : forall a b c : nat,
             (a <? b)%nat = true -> (b <? c)%nat = true -> (a <? c)%nat = true).
  { intros a b c Hab Hbc. apply Nat.ltb_lt in Hab, Hbc. apply Nat.ltb_lt. lia. }
  assert (Htot : forall a b : nat,
             (a <? b)%nat = false -> (b <? a)%nat = false -> a = b).
  { intros a b Hab Hba. apply Nat.ltb_ge in Hab, Hba. lia. }
  split; simpl; unfold Sample.nameLtb.
  - intros a. apply std_pair_ltb_irrefl; [apply string_ltb_irrefl |].
    intros k. apply std_pair_ltb_irrefl; [apply Hirr | apply string_ltb_irrefl].
  - intros a b c. apply std_pair_ltb_trans;
      try apply string_ltb_irrefl; try apply string_ltb_trans;
      try apply string_ltb_total.
    intros x y z. apply std_pair_ltb_trans; trivial; apply string_ltb_trans.
  - intros a b Hab Hba.
    assert (E : Sample.nameKey a = Sample.nameKey b).
    { revert Hab Hba. apply std_pair_ltb_total; [apply string_ltb_total |].
      intros x y. apply std_pair_ltb_total; [apply Htot | apply string_ltb_total]. }
    destruct a as [pa ta ea], b as [pb tb eb]. unfold Sample.nameKey in E.
    simpl in E. injection E as -> Hidx ->.
    f_equal. destruct ta, tb; simpl in Hidx; congruence.
Qed.

Lemma visit_permutation_witness :
  visit (Sample.table []) Sample.final Sample.themePermuted "Theme" Sample.start
  = visit (Sample.table []) Sample.final Sample.theme "Theme" Sample.start.
Proof.
  apply visit_permutation; [reflexivity |]. apply Permutation_rev.
Defined.

(** * Further properties of the generator *)

(** ** Names after [transform] *)

Lemma transform_app (a b : string) :
  transform (a ++ b) = transform a ++ transform b.
Proof. induction a as [|c a IH]; simpl; [reflexivity | now rewrite IH]. Qed.

Lemma transform_fixed (symbol : string) :
  (forall i c, String.get i symbol = Some c -> c <> "."%char /\ c <> "-"%char) ->
  transform symbol = symbol.
Proof.
  induction symbol as [|d symbol IH]; intros Hfree; simpl; [reflexivity |].
  destruct (Hfree 0 d eq_refl) as [Hdot Hdash].
  destruct (Ascii.eqb_spec d "."); [contradiction |].
  destruct (Ascii.eqb_spec d "-"); [contradiction |]. simpl.
  f_equal. apply IH. intros i c Hget. exact (Hfree (S i) c Hget).
Qed.

(** X1. What [transform] returns has no dot and no dash left, so that a
    second pass changes nothing: [transform] is idempotent, and it is the
    identity exactly on the names free of dots and dashes. *)
Theorem transform_leaves_no_dot_or_dash (symbol : string) :
  (forall i c, String.get i (transform symbol) = Some c ->
               c <> "."%char /\ c <> "-"%char)
  /\ transform (transform symbol) = transform symbol
  /\ (transform symbol = symbol <->
      forall i c, String.get i symbol = Some c -> c <> "."%char /\ c <> "-"%char).
Proof.
  assert (Hfree : forall i c, String.get i (transform symbol) = Some c ->
                              c <> "."%char /\ c <> "-"%char).
  { induction symbol as [|d symbol IH]; intros [|i] c; simpl; try discriminate.
    - intros [= <-].
      destruct (Ascii.eqb_spec d "."); [split; discriminate |].
      destruct (Ascii.eqb_spec d "-"); [split; discriminate |].
      simpl. now split.
    - apply IH. }
  split; [exact Hfree |]. split.
  - now apply transform_fixed.
  - split.
    + intros <-. exact Hfree.
    + apply transform_fixed.
Qed.

Lemma transform_leaves_no_dot_or_dash_witness :
  transform (transform "a.b-c") = transform "a.b-c"
  /\ transform "a_b$c" = "a_b$c".
Proof.
  destruct (transform_leaves_no_dot_or_dash "a.b-c") as (_ & Hidem & _).
  destruct (transform_leaves_no_dot_or_dash "a_b$c") as (_ & _ & Hfix).
  split; [exact Hidem |].
  apply Hfix. intros i c.
  do 5 (destruct i as [|i]; [intros [= <-]; split; discriminate |]).
  discriminate.
Defined.

(** ** The reserved set *)

Lemma get_In (s : string) :
  forall i c, String.get i s = Some c -> In c (list_ascii_of_string s).
Proof.
  induction s as [|d s IH]; intros [|i] c; simpl; try discriminate.
  - intros [= ->]. now left.
  - intros H. right. now apply IH with i.
Qed.

Lemma isValidSymbol_false (symbol : string) :
  isValidSymbol symbol = false <-> In symbol sJavaIdentifiers.
Proof.
  unfold isValidSymbol. rewrite negb_false_iff, existsb_exists. split.
  - intros (k & Hin & Heq). apply String.eqb_eq in Heq. now subst.
  - intros Hin. exists symbol. split; [exact Hin | apply String.eqb_refl].
Qed.

(** X2. Every member of the reserved set is a word of two to twelve
    lowercase letters: [isValidSymbol] accepts the empty name, every name
    of one character or of more than twelve, and every name with a
    character other than a lowercase letter (a digit, a capital, an
    underscore, a dot, a dash, a dollar sign). *)
Theorem reserved_symbols_are_lowercase_words (symbol : string) :
  isValidSymbol symbol = false ->
  2 <= String.length symbol <= 12
  /\ forall i c, String.get i symbol = Some c -> isLowercase c = true.
Proof.
  intros Hres. apply isValidSymbol_false in Hres.
  assert (Hall : forallb (fun k => (2 <=? String.length k)%nat
                                   && (String.length k <=? 12)%nat
                                   && forallb isLowercase (list_ascii_of_string k))%bool
                         sJavaIdentifiers = true) by reflexivity.
  rewrite forallb_forall in Hall. specialize (Hall symbol Hres).
  apply andb_prop in Hall as [Hlen Hchars]. apply andb_prop in Hlen as [Hlo Hhi].
  apply Nat.leb_le in Hlo, Hhi. split; [lia |].
  intros i c Hget. rewrite forallb_forall in Hchars.
  apply Hchars. now apply get_In with i.
Qed.

Lemma reserved_symbols_are_lowercase_words_witness :
  2 <= String.length "synchronized" <= 12
  /\ forall i c, String.get i "synchronized" = Some c -> isLowercase c = true.
Proof.
  apply (reserved_symbols_are_lowercase_words "synchronized"). reflexivity.
Defined.

Lemma underscore_makes_valid (a b : string) :
  isValidSymbol (a ++ "_" ++ b) = true.
Proof.
  destruct (isValidSymbol (a ++ "_" ++ b)) eqn:Hv; [reflexivity |].
  destruct (reserved_symbols_are_lowercase_words _ Hv) as [_ Hlow].
  specialize (Hlow (0 + String.length a) "_"%char).
  rewrite <- append_correct2 in Hlow. discriminate (Hlow eq_refl).
Qed.

Lemma transform_to_plain (symbol : string) :
  forall k, (forall i, String.get i k <> Some "_"%char) ->
            transform symbol = k -> symbol = k.
Proof.
  induction symbol as [|d symbol IH]; intros k Hk; simpl; intros <-.
  - reflexivity.
  - assert (Hd : (Ascii.eqb d "." || Ascii.eqb d "-")%bool = false).
    { destruct (Ascii.eqb d "." || Ascii.eqb d "-")%bool eqn:E; [| reflexivity].
      elim (Hk 0). reflexivity. }
    change (String d symbol
            = String (if (Ascii.eqb d "." || Ascii.eqb d "-")%bool
                      then "_"%char else d) (transform symbol)).
    rewrite Hd. f_equal. apply IH; [| reflexivity].
    intros i. exact (Hk (S i)).
Qed.

(** ** The styleable emitter checks before it writes *)

(** X4. [visit] collects and checks every attribute before its first
    write. When all pass, it writes its text; when one has no valid
    identifier or no valid name, the assertion fails and the stream is
    exactly as [visit] found it: no part of the array is ever written for
    a styleable that fails a check, wherever the bad attribute is stored. *)
Theorem visit_checks_before_writing `{C : Collaborators}
        (mTable : ResourceTable) (mOptions : Options)
        (styleable : Styleable) (owner : string) (s : state) :
  (attributesValid styleable = true
   /\ exists text, text <> ""
                   /\ visit mTable mOptions styleable owner s = Returns tt (emit s text))
  \/ (attributesValid styleable = false
      /\ exists msg, visit mTable mOptions styleable owner s = AssertionFailed msg s).
Proof.
  destruct (attributesValid styleable) eqn:Hv.
  - left. split; [reflexivity |]. eexists. split.
    + apply arrayDecl_nonempty.
    + exact (visit_writes mTable mOptions styleable owner Hv s).
  - right. split; [reflexivity |]. now apply visit_aborts.
Qed.

(** ** Attributes that share an identifier *)

Lemma StronglySorted_impl {A} (R1 R2 : A -> A -> Prop) (l : list A) :
  (forall a b, R1 a b -> R2 a b) -> StronglySorted R1 l -> StronglySorted R2 l.
Proof.
  intros Himp Hs. induction Hs as [|a l Hs IH Hall]; constructor; trivial.
  eapply Forall_impl; [| exact Hall]. intros b. apply Himp.
Qed.

(** X5. The vector [visit] sorts holds (identifier, name) pairs, and
    [std::sort] compares whole pairs: of any two attributes of the sorted
    order, the later has a greater identifier, or the same identifier and
    a name that is not smaller. Attributes that share an identifier come
    out in the order of their names, not in the order they are stored. *)
Theorem equal_ids_are_ordered_by_name `{C : Collaborators}
        `{O : !ResourceIdOrder} `{NO : !ResourceNameRefOrder}
        (styleable : Styleable) :
  StronglySorted attributeOrder (sortedAttributes styleable).
Proof.
  apply StronglySorted_impl with (R1 := ascending pair_ltb).
  - intros a b. unfold ascending, pair_ltb, std_pair_ltb, attributeOrder.
    intros H. apply orb_false_elim in H as [Hba Hrest].
    destruct (ResourceId_ltb (fst a) (fst b)) eqn:Hab; [now left |].
    right. split; [now apply ResourceId_lt_total | exact Hrest].
  - apply Sorted_StronglySorted.
    + intros x y z. unfold pair_ltb. apply ascending_trans.
      * apply std_pair_ltb_trans;
          [apply ResourceId_lt_irrefl | apply ResourceId_lt_trans
          | apply ResourceId_lt_total | apply ResourceNameRef_lt_trans].
      * apply std_pair_ltb_total;
          [apply ResourceId_lt_total | apply ResourceNameRef_lt_total].
    + unfold sortedAttributes, pair_ltb. apply std_sort_sorted.
      * apply std_pair_ltb_irrefl;
          [apply ResourceId_lt_irrefl | apply ResourceNameRef_lt_irrefl].
      * apply std_pair_ltb_trans;
          [apply ResourceId_lt_irrefl | apply ResourceId_lt_trans
          | apply ResourceId_lt_total | apply ResourceNameRef_lt_trans].
Qed.

Lemma equal_ids_are_ordered_by_name_witness :
  StronglySorted attributeOrder (sortedAttributes Sample.twins)
  /\ map (fun p => ref_entry (snd p)) (sortedAttributes Sample.twins)
     = ["alpha"; "zoom"].
Proof.
  split; [apply equal_ids_are_ordered_by_name | reflexivity].
Defined.

(** ** One package for an entry *)

Lemma emitted_passes `{C : Collaborators}
      (mTable : ResourceTable) (mOptions : Options) (package : string)
      (type_ : ResourceTableType) (entry : ResourceEntry) (s : state) :
  emitted (generateEntry mTable mOptions package (getPackageId mTable)
                         type_ entry s) s ->
  exists plainName, passesFilter mTable package entry plainName.
Proof.
  intros Hemit.
  destruct (ResourceId_isValid (entryResourceId mTable type_ entry)) eqn:Hid.
  - destruct (unmangle (name entry)) as [[plainName origin]|] eqn:Hun.
    + destruct (String.eqb_spec origin package) as [->|Hne].
      * exists plainName. now left.
      * elim (emitted_not_skipped _ _ Hemit).
        apply (generateEntry_skips_mangled mTable mOptions package type_ entry
                 plainName origin s Hid Hun Hne).
    + destruct (String.eqb_spec package (getPackage mTable)) as [E|Hne].
      * exists (name entry). right. now repeat split.
      * elim (emitted_not_skipped _ _ Hemit).
        apply (generateEntry_skips_plain mTable mOptions package type_ entry s
                 Hid Hun Hne).
  - destruct Hemit as (text & _ & Hr).
    rewrite (generateEntry_invalid_id mTable mOptions package type_ entry s Hid) in Hr.
    discriminate.
Qed.

(** X6. An entry is emitted for one package at most: if an iteration
    writes text for it when generating for [package1] and another does
    when generating for [package2], whatever the options and the states,
    then the two packages are the same one - the origin its name
    unmangles to, or the table's own when the name is not mangled. *)
Theorem entry_is_emitted_for_one_package `{C : Collaborators}
        (mTable : ResourceTable) (options1 options2 : Options)
        (package1 package2 : string)
        (type_ : ResourceTableType) (entry : ResourceEntry) (s1 s2 : state) :
  emitted (generateEntry mTable options1 package1 (getPackageId mTable)
                         type_ entry s1) s1 ->
  emitted (generateEntry mTable options2 package2 (getPackageId mTable)
                         type_ entry s2) s2 ->
  package1 = package2
  /\ match unmangle (name entry) with
     | Some (_, origin) => package1 = origin
     | None => package1 = getPackage mTable
     end.
Proof.
  intros H1 H2.
  apply emitted_passes in H1 as (n1 & [H1 | (H1 & E1 & _)]);
    apply emitted_passes in H2 as (n2 & [H2 | (H2 & E2 & _)]);
    rewrite H1 in *; try discriminate.
  - injection H2 as _ ->. now split.
  - split; [congruence | exact E1].
Qed.

Lemma entry_is_emitted_for_one_package_witness :
  "lib" = "lib"
  /\ match unmangle (name {| entryId := 2; name := "lib$home"; values := [] |}) with
     | Some (_, origin) => "lib" = origin
     | None => "lib" = getPackage (Sample.table [Sample.idType [(2%N, "lib$home")]])
     end.
Proof.
  apply (entry_is_emitted_for_one_package
           (Sample.table [Sample.idType [(2%N, "lib$home")]])
           Sample.final Sample.mutable "lib" "lib"
           (Sample.idType [(2%N, "lib$home")])
           {| entryId := 2; name := "lib$home"; values := [] |}
           Sample.start Sample.start).
  - exists ("        public static final int home = 0x01010002;" ++ endl).
    split; [discriminate | reflexivity].
  - exists ("        public static int home = 0x01010002;" ++ endl).
    split; [discriminate | reflexivity].
Defined.

(** ** The text of a successful run *)

Lemma for_each_none_text {A} (l : list A) (body : A -> M (option bool))
      (text : A -> string) :
  (forall a s1 s2, In a l -> body a s1 = Returns None s2 -> s2 = emit s1 (text a)) ->
  forall s s', for_each l body s = Returns None s' ->
               s' = emit s (joined (map text l)).
Proof.
  induction l as [|x l IH]; intros Hbody s s'; simpl.
  - intros [= <-]. now rewrite emit_nil.
  - unfold bind. destruct (body x s) as [[v|] s1|msg s1] eqn:Hx; try discriminate.
    intros Hrest.
    rewrite (Hbody x s s1 (or_introl eq_refl) Hx) in Hrest.
    rewrite (IH (fun a t1 t2 Ha => Hbody a t1 t2 (or_intror Ha)) _ _ Hrest).
    apply emit_emit.
Qed.

(** Every element of a list the loop went through had an iteration that
    ended normally. *)
Lemma for_each_none_each {A} (l : list A) (body : A -> M (option bool)) :
  forall s s', for_each l body s = Returns None s' ->
               forall a, In a l -> exists s1 s2, body a s1 = Returns None s2.
Proof.
  induction l as [|x l IH]; intros s s'; simpl.
  - intros _ a [].
  - unfold bind. destruct (body x s) as [[v|] s1|msg s1] eqn:Hx; try discriminate.
    intros Hrest a [<- | Ha].
    + now exists s, s1.
    + exact (IH s1 s' Hrest a Ha).
Qed.

Section RunFacts.
Context `{C : Collaborators}.
Variable mTable : ResourceTable.
Variable mOptions : Options.
Variable package : string.

#[local] Abbreviation entryStep := (generateEntry mTable mOptions package (getPackageId mTable)).
#[local] Abbreviation entryTail := (emitEntry mTable mOptions package (getPackageId mTable)).
#[local] Abbreviation classStep := (generateClass mTable mOptions package (getPackageId mTable)).

Lemma emitEntry_returns type_ entry plainName s r s' :
  entryTail type_ entry plainName s = Returns r s' ->
  (r = None /\ isValidSymbol plainName = true
   /\ s' = emit s (declarationText mTable mOptions type_ entry plainName))
  \/ (r = Some false /\ isValidSymbol plainName = false /\ out s' = out s
      /\ mError s' = "invalid symbol name '" ++
                     ResourceNameRef_print {| ref_package := package;
                                              ref_type := type type_;
                                              ref_entry := plainName |} ++ "'").
Proof.
  intros Hrun. destruct (isValidSymbol plainName) eqn:Hvalid.
  - left. unfold declarationText.
    destruct (ResourceType_eqb (type type_) kStyleable) eqn:Hty.
    + destruct (values entry) as [|front rest] eqn:Hvals.
      { unfold emitEntry in Hrun. rewrite Hvalid, Hty, Hvals in Hrun. discriminate. }
      destruct (value front) as [styleable|] eqn:Hfront.
      * destruct (attributesValid styleable) eqn:Hattrs.
        -- rewrite (emitEntry_styleable mTable mOptions package type_ entry plainName
                      front rest styleable Hvalid Hty Hvals Hfront Hattrs s) in Hrun.
           injection Hrun as <- <-. now repeat split.
        -- destruct (visit_aborts mTable mOptions styleable plainName s Hattrs)
             as [msg Habort].
           unfold emitEntry in Hrun. rewrite Hvalid, Hty, Hvals, Hfront in Hrun.
           cbn [negb accept] in Hrun. unfold bind, assert in Hrun.
           rewrite Habort in Hrun. discriminate.
      * rewrite (emitEntry_other mTable mOptions package type_ entry plainName
                   front rest s Hvalid Hty Hvals Hfront) in Hrun.
        injection Hrun as <- <-. rewrite emit_nil. now repeat split.
    + rewrite (emitEntry_plain mTable mOptions package type_ entry plainName
                 Hvalid Hty s) in Hrun.
      injection Hrun as <- <-. now repeat split.
  - right.
    rewrite (emitEntry_reserved mTable mOptions package type_ entry plainName
               s Hvalid) in Hrun.
    injection Hrun as <- <-. now repeat split.
Qed.

Lemma generateEntry_returns type_ entry s r s' :
  entryStep type_ entry s = Returns r s' ->
  ResourceId_isValid (entryResourceId mTable type_ entry) = true
  /\ ((r = None /\ s' = emit s (entryText mTable mOptions package type_ entry)
       /\ entryValid mTable package entry)
      \/ (r = Some false /\ out s' = out s
          /\ exists plainName, reservedAt mTable package type_ entry plainName s')).
Proof.
  intros Hrun.
  destruct (ResourceId_isValid (entryResourceId mTable type_ entry)) eqn:Hid.
  2:{ rewrite (generateEntry_invalid_id mTable mOptions package type_ entry s Hid)
        in Hrun. discriminate. }
  split; [reflexivity |]. unfold entryText.
  assert (Htail : forall plainName,
             passesFilter mTable package entry plainName ->
             entryTail type_ entry plainName s = Returns r s' ->
             (r = None
              /\ s' = emit s (declarationText mTable mOptions type_ entry plainName)
              /\ entryValid mTable package entry)
             \/ (r = Some false /\ out s' = out s
                 /\ exists n, reservedAt mTable package type_ entry n s')).
  { intros plainName Hpass Ht.
    destruct (emitEntry_returns _ _ _ _ _ _ Ht)
      as [(-> & Hvalid & ->) | (-> & Hbad & Hout & Herr)].
    - left. repeat split; trivial. intros n Hn.
      now rewrite (passesFilter_functional mTable package entry n plainName Hn Hpass).
    - right. repeat split; trivial. exists plainName. now repeat split. }
  destruct (unmangle (name entry)) as [[plainName origin]|] eqn:Hun.
  - destruct (String.eqb_spec package origin) as [E|Hne].
    + subst origin.
      rewrite (generateEntry_passes mTable mOptions package type_ entry plainName s
                 Hid (or_introl Hun)) in Hrun.
      apply Htail; [now left | exact Hrun].
    + rewrite (generateEntry_skips_mangled mTable mOptions package type_ entry
                 plainName origin s Hid Hun (not_eq_sym Hne)) in Hrun.
      injection Hrun as <- <-. left. rewrite emit_nil. repeat split; trivial.
      intros n [Hn | (Hn & _)]; rewrite Hun in Hn; [| discriminate].
      injection Hn as _ E. now elim Hne.
  - destruct (String.eqb_spec package (getPackage mTable)) as [E|Hne].
    + rewrite (generateEntry_passes mTable mOptions package type_ entry (name entry) s
                 Hid (or_intror (conj Hun (conj E eq_refl)))) in Hrun.
      apply Htail; [right; now repeat split | exact Hrun].
    + rewrite (generateEntry_skips_plain mTable mOptions package type_ entry s
                 Hid Hun Hne) in Hrun.
      injection Hrun as <- <-. left. rewrite emit_nil. repeat split; trivial.
      intros n [Hn | (_ & Hn & _)]; [rewrite Hun in Hn; discriminate | contradiction].
Qed.

Lemma generateClass_returns type_ s r s' :
  classStep type_ s = Returns r s' ->
  (r = None /\ s' = emit s (classText mTable mOptions package type_)
   /\ forall entry, In entry (entries type_) ->
                    ResourceId_isValid (entryResourceId mTable type_ entry) = true
                    /\ entryValid mTable package entry)
  \/ (r = Some false
      /\ exists entry plainName,
          In entry (entries type_) /\ reservedAt mTable package type_ entry plainName s').
Proof.
  rewrite generateClass_unfold.
  destruct (for_each (entries type_) (entryStep type_) _) as [[b|] s1|msg s1] eqn:Hloop;
    try discriminate.
  - destruct (for_each_returned _ _ _ _ _ Hloop)
      as (before & entry & after & s2 & Hsplit & _ & Hentry).
    destruct (generateEntry_returns _ _ _ _ _ Hentry)
      as (_ & [(E & _) | (E & _ & n & Herr)]); [discriminate |].
    injection E as ->. intros [= <- <-]. right. split; [reflexivity |].
    exists entry, n. split; [| exact Herr].
    rewrite Hsplit. apply in_or_app. right. now left.
  - intros [= <- <-]. left. split; [reflexivity |].
    assert (Hentries : forall a t1 t2, In a (entries type_) ->
                         entryStep type_ a t1 = Returns None t2 ->
                         t2 = emit t1 (entryText mTable mOptions package type_ a)).
    { intros a t1 t2 _ Ha.
      destruct (generateEntry_returns _ _ _ _ _ Ha) as (_ & [(_ & E & _) | (E & _)]);
        [exact E | discriminate]. }
    split.
    + rewrite (for_each_none_text _ _ _ Hentries _ _ Hloop).
      rewrite !emit_emit. unfold classText. now rewrite ?append_assoc.
    + intros entry Hin.
      destruct (for_each_none_each _ _ _ _ Hloop entry Hin) as (t1 & t2 & Ht).
      destruct (generateEntry_returns _ _ _ _ _ Ht)
        as (Hid & [(_ & _ & Hvalid) | (E & _)]); [now split | discriminate].
Qed.

Lemma generate_returns s ok s' :
  generate mTable mOptions package s = Returns ok s' ->
  (ok = true /\ s' = emit s (tableText mTable mOptions package)
   /\ forall type_ entry, In type_ (types mTable) -> In entry (entries type_) ->
                          ResourceId_isValid (entryResourceId mTable type_ entry) = true
                          /\ entryValid mTable package entry)
  \/ (ok = false
      /\ exists type_ entry plainName,
          In type_ (types mTable) /\ In entry (entries type_)
          /\ reservedAt mTable package type_ entry plainName s').
Proof.
  rewrite generate_unfold.
  destruct (for_each (types mTable) classStep _) as [[b|] s1|msg s1] eqn:Hloop;
    try discriminate.
  - destruct (for_each_returned _ _ _ _ _ Hloop)
      as (before & type_ & after & s2 & Hsplit & _ & Hclass).
    destruct (generateClass_returns _ _ _ _ Hclass)
      as [(E & _) | (E & entry & n & Hin & Herr)]; [discriminate |].
    injection E as ->. intros [= <- <-]. right. split; [reflexivity |].
    exists type_, entry, n. repeat split; trivial; try apply Herr.
    rewrite Hsplit. apply in_or_app. right. now left.
  - intros [= <- <-]. left. split; [reflexivity |].
    assert (Hclasses : forall a t1 t2, In a (types mTable) ->
                                       classStep a t1 = Returns None t2 ->
                                       t2 = emit t1 (classText mTable mOptions package a)).
    { intros a t1 t2 _ Ha.
      destruct (generateClass_returns _ _ _ _ Ha) as [(_ & E & _) | (E & _)];
        [exact E | discriminate]. }
    split.
    + rewrite (for_each_none_text _ _ _ Hclasses _ _ Hloop).
      rewrite !emit_emit. unfold tableText. now rewrite ?append_assoc.
    + intros type_ entry Hty He.
      destruct (for_each_none_each _ _ _ _ Hloop type_ Hty) as (t1 & t2 & Ht).
      destruct (generateClass_returns _ _ _ _ Ht) as [(_ & _ & Hids) | (E & _)];
        [now apply Hids | discriminate].
Qed.

End RunFacts.

(** X7. When [generate] returns [true], the stream holds, after what was
    there, exactly the banner, the package line and the class [R] with one
    nested class for every type, in the order of the table, and in each
    the declarations of its entries, in the order of the type; an entry
    that the package filter skips contributes nothing. Nothing else is
    written and the error field is as it was. *)
Theorem successful_run_writes_the_table `{C : Collaborators}
        (mTable : ResourceTable) (mOptions : Options) (package : string)
        (s s' : state) :
  generate mTable mOptions package s = Returns true s' ->
  out s' = out s ++
           preamble package ++
           joined (map (fun type_ =>
                          classOpen (ResourceType_print (type type_)) ++
                          joined (map (entryText mTable mOptions package type_)
                                      (entries type_)) ++
                          classClose)
                       (types mTable)) ++
           "}" ++ endl
  /\ mError s' = mError s.
Proof.
  intros Hrun.
  destruct (generate_returns mTable mOptions package s true s' Hrun)
    as [(_ & -> & _) | (E & _)]; [| discriminate].
  split; reflexivity.
Qed.

Lemma successful_run_writes_the_table_witness :
  preamble "app" ++ classOpen "id" ++
  ("        public static int foo = 0x01010001;" ++ endl) ++
  classClose ++ "}" ++ endl
  = "" ++
    preamble "app" ++
    joined (map (fun type_ =>
                   classOpen (ResourceType_print (type type_)) ++
                   joined (map (entryText
                                  (Sample.table [Sample.idType [(1%N, "foo"); (2%N, "lib$bar")]])
                                  Sample.mutable "app" type_)
                               (entries type_)) ++
                   classClose)
                [Sample.idType [(1%N, "foo"); (2%N, "lib$bar")]]) ++
    "}" ++ endl
  /\ "" = "".
Proof.
  apply (successful_run_writes_the_table
           (Sample.table [Sample.idType [(1%N, "foo"); (2%N, "lib$bar")]])
           Sample.mutable "app" Sample.start
           {| out := preamble "app" ++ classOpen "id" ++
                     ("        public static int foo = 0x01010001;" ++ endl) ++
                     classClose ++ "}" ++ endl;
              mError := "" |}).
  vm_compute. reflexivity.
Defined.

(** X8. With assertions compiled in, a run that returns [true] has checked
    the whole table: every entry of every type has a valid identifier -
    the entries the package filter skips included, since the assertion
    comes before the filter - and no entry passes the filter under a
    reserved name. *)
Theorem success_certifies_the_table `{C : Collaborators}
        (mTable : ResourceTable) (mOptions : Options) (package : string)
        (s s' : state) :
  generate mTable mOptions package s = Returns true s' ->
  forall type_ entry,
    In type_ (types mTable) -> In entry (entries type_) ->
    ResourceId_isValid
      (ResourceId_make (getPackageId mTable) (typeId type_) (entryId entry)) = true
    /\ forall plainName,
        passesFilter mTable package entry plainName ->
        isValidSymbol plainName = true.
Proof.
  intros Hrun type_ entry Hty He.
  destruct (generate_returns mTable mOptions package s true s' Hrun)
    as [(_ & _ & Hall) | (E & _)]; [| discriminate].
  exact (Hall type_ entry Hty He).
Qed.

Lemma success_certifies_the_table_witness :
  ResourceId_isValid (ResourceId_make 1 1 2) = true
  /\ forall plainName,
      passesFilter (Sample.table [Sample.idType [(1%N, "foo"); (2%N, "lib$class")]])
                   "app" {| entryId := 2; name := "lib$class"; values := [] |}
                   plainName ->
      isValidSymbol plainName = true.
Proof.
  assert (Hrun : generate (Sample.table [Sample.idType [(1%N, "foo"); (2%N, "lib$class")]])
                          Sample.final "app" Sample.start
                 = Returns true
                     {| out := preamble "app" ++ classOpen "id" ++
                               ("        public static final int foo = 0x01010001;" ++ endl) ++
                               classClose ++ "}" ++ endl;
                        mError := "" |})
    by (vm_compute; reflexivity).
  apply (success_certifies_the_table
           (Sample.table [Sample.idType [(1%N, "foo"); (2%N, "lib$class")]])
           Sample.final "app" Sample.start _ Hrun
           (Sample.idType [(1%N, "foo"); (2%N, "lib$class")])
           {| entryId := 2; name := "lib$class"; values := [] |}).
  - now left.
  - right. now left.
Defined.

(** X9. A run that returns [false] has met an entry that passes the
    package filter under a name of the reserved set, and [mError] reads
    "invalid symbol name" with the printed reference of that entry
    (requested package, type, plain name). [generate] has no other way to
    fail, and it holds for every table: no assertion-level assumption is
    needed once the run has returned. *)
Theorem failure_names_a_reserved_entry `{C : Collaborators}
        (mTable : ResourceTable) (mOptions : Options) (package : string)
        (s s' : state) :
  generate mTable mOptions package s = Returns false s' ->
  exists type_ entry plainName,
    In type_ (types mTable) /\ In entry (entries type_)
    /\ passesFilter mTable package entry plainName
    /\ isValidSymbol plainName = false
    /\ mError s' = "invalid symbol name '" ++
                   ResourceNameRef_print {| ref_package := package;
                                            ref_type := type type_;
                                            ref_entry := plainName |} ++ "'".
Proof.
  intros Hrun.
  destruct (generate_returns mTable mOptions package s false s' Hrun)
    as [(E & _) | (_ & type_ & entry & n & Hty & He & Hpass & Hbad & Herr)];
    [discriminate |].
  now exists type_, entry, n.
Qed.

Lemma failure_names_a_reserved_entry_witness :
  exists type_ entry plainName,
    In type_ (types (Sample.table [Sample.idType [(1%N, "foo"); (2%N, "lib$null")]]))
    /\ In entry (entries type_)
    /\ passesFilter (Sample.table [Sample.idType [(1%N, "foo"); (2%N, "lib$null")]])
                    "lib" entry plainName
    /\ isValidSymbol plainName = false
    /\ "invalid symbol name 'lib:id/null'"
       = "invalid symbol name '" ++
         ResourceNameRef_print {| ref_package := "lib";
                                  ref_type := type type_;
                                  ref_entry := plainName |} ++ "'".
Proof.
  apply (failure_names_a_reserved_entry
           (Sample.table [Sample.idType [(1%N, "foo"); (2%N, "lib$null")]])
           Sample.final "lib" Sample.start
           {| out := preamble "lib" ++ classOpen "id";
              mError := "invalid symbol name 'lib:id/null'" |}).
  vm_compute. reflexivity.
Defined.

(** ** Generating for a package without entries *)

Lemma for_each_skips {A} (l : list A) (body : A -> M (option bool)) :
  (forall a, In a l -> forall s, body a s = Returns None s) ->
  forall s, for_each l body s = Returns None s.
Proof.
  induction l as [|x l IH]; intros Hbody s; simpl; [reflexivity |].
  unfold bind. rewrite (Hbody x (or_introl eq_refl) s).
  apply IH. intros a Ha. apply Hbody. now right.
Qed.

Lemma for_each_writes {A} (l : list A) (body : A -> M (option bool))
      (text : A -> string) :
  (forall a, In a l -> forall s, body a s = Returns None (emit s (text a))) ->
  forall s, for_each l body s = Returns None (emit s (joined (map text l))).
Proof.
  induction l as [|x l IH]; intros Hbody s; simpl.
  - unfold ret. now rewrite emit_nil.
  - unfold bind. rewrite (Hbody x (or_introl eq_refl) s).
    rewrite IH by (intros a Ha; apply Hbody; now right).
    now rewrite emit_emit.
Qed.

(** X10. When no entry of the table belongs to the requested package - the
    mangled ones have another origin, and the package is not the table's
    own - [generate] succeeds and the class [R] it writes has one nested
    class for every type of the table, each of them empty. Only the
    identifiers are looked at: the names of the skipped entries may be
    reserved words and their values may be missing. *)
Theorem foreign_package_gets_empty_classes `{C : Collaborators}
        (mTable : ResourceTable) (mOptions : Options) (package : string)
        (s : state) :
  (forall type_ entry,
      In type_ (types mTable) -> In entry (entries type_) ->
      ResourceId_isValid
        (ResourceId_make (getPackageId mTable) (typeId type_) (entryId entry)) = true
      /\ foreignEntry mTable package entry) ->
  generate mTable mOptions package s
  = Returns true
      (emit s (preamble package ++
               joined (map (fun type_ =>
                              classOpen (ResourceType_print (type type_)) ++ classClose)
                           (types mTable)) ++
               "}" ++ endl)).
Proof.
  intros Hall. rewrite generate_unfold.
  rewrite (for_each_writes (types mTable)
             (generateClass mTable mOptions package (getPackageId mTable))
             (fun type_ => classOpen (ResourceType_print (type type_)) ++ classClose)).
  - rewrite !emit_emit. now rewrite ?append_assoc.
  - intros type_ Hty s0. rewrite generateClass_unfold.
    rewrite for_each_skips.
    + now rewrite emit_emit.
    + intros entry He s1. destruct (Hall type_ entry Hty He) as [Hid Hforeign].
      unfold foreignEntry in Hforeign.
      destruct (unmangle (name entry)) as [[plainName origin]|] eqn:Hun.
      * now apply generateEntry_skips_mangled with plainName origin.
      * now apply generateEntry_skips_plain.
Qed.

Lemma foreign_package_gets_empty_classes_witness :
  generate (Sample.table [Sample.idType [(1%N, "class"); (2%N, "lib$foo")];
                          Sample.valuelessStyleableType])
           Sample.final "other" Sample.start
  = Returns true
      (emit Sample.start
            (preamble "other" ++
             (classOpen "id" ++ classClose) ++
             (classOpen "styleable" ++ classClose) ++
             "}" ++ endl)).
Proof.
  apply (foreign_package_gets_empty_classes
           (Sample.table [Sample.idType [(1%N, "class"); (2%N, "lib$foo")];
                          Sample.valuelessStyleableType])
           Sample.final "other" Sample.start).
  intros type_ entry [<- | [<- | []]].
  - intros [<- | [<- | []]]; split; try reflexivity; discriminate.
  - intros [<- | []]; split; try reflexivity; discriminate.
Defined.

(** ** The stream only grows *)

Lemma appends_ret {A} (a : A) : appends (ret a).
Proof. intros s. exists "". simpl. now rewrite append_nil_r. Qed.

Lemma appends_write (text : string) : appends (write text).
Proof. intros s. now exists text. Qed.

Lemma appends_setError (text : string) : appends (setError text).
Proof. intros s. exists "". simpl. now rewrite append_nil_r. Qed.

Lemma appends_assert (cond : bool) (msg : string) : appends (assert cond msg).
Proof.
  intros s. exists "". unfold assert. destruct cond; simpl; now rewrite append_nil_r.
Qed.

Lemma appends_bind {A B} (c : M A) (k : A -> M B) :
  appends c -> (forall a, appends (k a)) -> appends (bind c k).
Proof.
  intros Hc Hk s. unfold bind. destruct (Hc s) as [t1 H1].
  destruct (c s) as [a s1|msg s1]; simpl in H1.
  - destruct (Hk a s1) as [t2 H2]. exists (t1 ++ t2).
    now rewrite H2, H1, append_assoc.
  - now exists t1.
Qed.

Lemma appends_for_each {A R} (l : list A) (body : A -> M (option R)) :
  (forall a, appends (body a)) -> appends (for_each l body).
Proof.
  intros Hbody. induction l as [|x l IH]; simpl.
  - apply appends_ret.
  - apply appends_bind; [apply Hbody |].
    intros [v|]; [apply appends_ret | exact IH].
Qed.

Lemma appends_for_range (count : nat) (body : nat -> M unit) :
  (forall i, appends (body i)) -> forall from, appends (for_range count from body).
Proof.
  intros Hbody. induction count as [|count IH]; intros from; simpl.
  - apply appends_ret.
  - apply appends_bind; [apply Hbody | intros _; apply IH].
Qed.

Ltac appends_steps :=
  repeat first
    [ apply appends_ret | apply appends_write | apply appends_setError
    | apply appends_assert
    | apply appends_for_range; intros
    | apply appends_for_each; intros
    | apply appends_bind; [| intros]
    | match goal with
      | |- appends (if ?b then _ else _) => destruct b
      | |- appends (match ?x with _ => _ end) => destruct x
      end ].

Section AppendFacts.
Context `{C : Collaborators}.
Variable mTable : ResourceTable.
Variable mOptions : Options.

Lemma appends_collectAttributes (attrs : list Reference) :
  appends (collectAttributes attrs).
Proof.
  induction attrs as [|attr attrs IH]; simpl; [apply appends_ret |].
  repeat (apply appends_bind; [try apply appends_assert; try exact IH | intros]).
  apply appends_ret.
Qed.

Lemma appends_visit (styleable : Styleable) (entryName : string) :
  appends (visit mTable mOptions styleable entryName).
Proof.
  unfold visit. apply appends_bind; [apply appends_collectAttributes |].
  intros collected. appends_steps.
Qed.

Lemma appends_generateEntry (package : string) (packageId : N)
      (type_ : ResourceTableType) (entry : ResourceEntry) :
  appends (generateEntry mTable mOptions package packageId type_ entry).
Proof.
  assert (Htail : forall n, appends (emitEntry mTable mOptions package packageId
                                               type_ entry n)).
  { intros n. unfold emitEntry.
    destruct (negb (isValidSymbol n)); [appends_steps |].
    destruct (ResourceType_eqb (type type_) kStyleable); [| appends_steps].
    apply appends_bind; [apply appends_assert | intros _].
    apply appends_bind; [| intros _; apply appends_ret].
    destruct (values entry) as [|front rest]; [apply appends_ret |].
    unfold accept. destruct (value front); [apply appends_visit | apply appends_ret]. }
  unfold generateEntry. apply appends_bind; [apply appends_assert | intros _].
  destruct (unmangle (name entry)) as [[n origin]|].
  - destruct (negb (package =? origin)%string); [apply appends_ret | apply Htail].
  - destruct (negb (package =? getPackage mTable)%string);
      [apply appends_ret | apply Htail].
Qed.

Lemma appends_generateClass (package : string) (packageId : N)
      (type_ : ResourceTableType) :
  appends (generateClass mTable mOptions package packageId type_).
Proof.
  unfold generateClass, generateType.
  do 4 (apply appends_bind; [apply appends_write | intros _]).
  apply appends_bind.
  - apply appends_bind.
    + apply appends_for_each. intros entry. apply appends_generateEntry.
    + intros [b|]; apply appends_ret.
  - intros ok. destruct (negb ok); appends_steps.
Qed.

End AppendFacts.

(** X11. [generate] never takes back what is on the stream, and it always
    starts with the header: however the run ends - [true], [false], or a
    failed assertion - the stream is what it was before the call, then the
    banner, the package line and the line that opens the class [R], then
    whatever else was written. A failed run leaves this partial text
    behind. *)
Theorem every_run_starts_with_the_header `{C : Collaborators}
        (mTable : ResourceTable) (mOptions : Options) (package : string)
        (s : state) :
  exists rest,
    out (finalState (generate mTable mOptions package s))
    = out s ++
      ("/* AUTO-GENERATED FILE. DO NOT MODIFY." ++ endl ++
       " *" ++ endl ++
       " * This class was automatically generated by the" ++ endl ++
       " * aapt tool from the resource data it found. It" ++ endl ++
       " * should not be modified by hand." ++ endl ++
       " */" ++ endl ++ endl ++
       "package " ++ package ++ ";" ++ endl ++ endl ++
       "public final class R {" ++ endl) ++
      rest.
Proof.
  rewrite generate_unfold.
  destruct (appends_for_each (types mTable)
              (generateClass mTable mOptions package (getPackageId mTable))
              (fun type_ => appends_generateClass mTable mOptions package
                              (getPackageId mTable) type_)
              (emit s (preamble package))) as [text Htext].
  change (out (emit s (preamble package))) with (out s ++ preamble package) in Htext.
  fold (preamble package).
  destruct (for_each (types mTable) _ (emit s (preamble package)))
    as [[ok|] s1|msg s1]; cbn [finalState] in Htext |- *.
  - exists text. now rewrite Htext, append_assoc.
  - exists (text ++ "}" ++ endl). unfold emit; cbn [out].
    now rewrite Htext, !append_assoc.
  - exists text. now rewrite Htext, append_assoc.
Qed.

(** * Entries in the loop of [generateType] *)

Lemma joined_cons (x : string) (l : list string) : joined (x :: l) = x ++ joined l.
Proof. reflexivity. Qed.

Lemma joined_app (l1 l2 : list string) :
  joined (l1 ++ l2) = joined l1 ++ joined l2.
Proof.
  induction l1 as [|x l1 IH]; simpl; [reflexivity |].
  now rewrite IH, append_assoc.
Qed.

Lemma entryText_passes `{C : Collaborators}
      (mTable : ResourceTable) (mOptions : Options) (package : string)
      (type_ : ResourceTableType) (entry : ResourceEntry) (plainName : string) :
  passesFilter mTable package entry plainName ->
  entryText mTable mOptions package type_ entry
  = declarationText mTable mOptions type_ entry plainName.
Proof.
  unfold entryText. intros [Hun | (Hun & Hpkg & ->)]; rewrite Hun.
  - now rewrite String.eqb_refl.
  - rewrite <- Hpkg. now rewrite String.eqb_refl.
Qed.

Section TypeLoop.
Context `{C : Collaborators}.
Variable mTable : ResourceTable.
Variable mOptions : Options.
Variable package : string.
Variable tag : ResourceType.
Variable tid : N.

#[local] Abbreviation typeWith l := ({| type := tag; typeId := tid; entries := l |}).
#[local] Abbreviation step :=
  (generateEntry mTable mOptions package (getPackageId mTable) (typeWith [])).
#[local] Abbreviation run := (runType mTable mOptions package tag tid).

(** The iterations read the tag and the identifier of the type only. *)
Lemma runType_unfold (l : list ResourceEntry) (s : state) :
  run l s =
  match for_each l step s with
  | Returns (Some b) s' => Returns b s'
  | Returns None s' => Returns true s'
  | AssertionFailed msg s' => AssertionFailed msg s'
  end.
Proof.
  unfold runType, generateType, bind. cbn [entries].
  change (generateEntry mTable mOptions package (getPackageId mTable) (typeWith l))
    with step.
  destruct (for_each l step s) as [[b|] s'|msg s']; reflexivity.
Qed.

Lemma runType_true (l : list ResourceEntry) (s s1 : state) :
  run l s = Returns true s1 <-> for_each l step s = Returns None s1.
Proof.
  rewrite runType_unfold. split.
  - destruct (for_each l step s) as [[b|] s'|msg s'] eqn:Hloop; try discriminate.
    + intros [= -> ->].
      destruct (for_each_returned _ _ _ _ _ Hloop) as (b & a & c & s2 & _ & _ & Ha).
      destruct (generateEntry_returns _ _ _ _ _ _ _ _ Ha)
        as (_ & [(E & _) | (E & _)]); discriminate.
    + now intros [= ->].
  - now intros ->.
Qed.

Lemma runType_nil (s : state) : run [] s = Returns true s.
Proof. reflexivity. Qed.

(** After an iteration that ends normally, the loop goes on with the
    entries that follow. *)
Lemma runType_after (before after : list ResourceEntry) (entry : ResourceEntry)
      (s s1 s2 : state) :
  run before s = Returns true s1 ->
  step entry s1 = Returns None s2 ->
  run (before ++ entry :: after) s = run after s2.
Proof.
  intros Hbefore Hentry. apply runType_true in Hbefore.
  rewrite !runType_unfold, for_each_app, Hbefore.
  cbn [for_each]. unfold bind at 1. now rewrite Hentry.
Qed.

Lemma emittedInType_not_skipped (before : list ResourceEntry)
      (entry : ResourceEntry) (s : state) :
  emittedInType mTable mOptions package tag tid before entry s ->
  ~ skippedInType mTable mOptions package tag tid before entry s.
Proof.
  intros (s1 & text & Hne & Hbefore & Hemit) (s1' & Hbefore' & Hskip).
  rewrite Hbefore in Hbefore'. injection Hbefore' as <-.
  specialize (Hemit []). rewrite (Hskip []), !runType_nil in Hemit.
  injection Hemit as Hs. rewrite <- (emit_nil s1) in Hs at 1.
  apply emit_inj in Hs. now apply Hne.
Qed.

End TypeLoop.

(** ** Plain constants *)

(** C1. Take an entry of a type other than styleable that passes the
    package filter under a name outside the reserved set. When
    [generateType] has gone through the entries before it, the next text
    it puts on the stream is one constant declaration - its value the
    printed identifier made of the table's package identifier, the type's
    identifier and the entry's identifier, its name the transformed plain
    name - and it goes on with the entries after it. And when [generate]
    returns [true], this declaration stands in the output between the
    texts of the entries before and after it, in the nested class of its
    type. *)
Theorem plain_constant_packs_id `{C : Collaborators}
        (mTable : ResourceTable) (mOptions : Options) (package : string)
        (tag : ResourceType) (tid : N)
        (before after : list ResourceEntry) (entry : ResourceEntry)
        (plainName : string) :
  ResourceType_eqb tag kStyleable = false ->
  ResourceId_isValid (ResourceId_make (getPackageId mTable) tid (entryId entry)) = true ->
  passesFilter mTable package entry plainName ->
  isValidSymbol plainName = true ->
  let typeWith l := {| type := tag; typeId := tid; entries := l |} in
  let declaration :=
    constantDecl (useFinal mOptions) (transform plainName)
      (ResourceId_print
         (ResourceId_make (getPackageId mTable) tid (entryId entry))) in
  (forall s s1,
      generateType mTable mOptions package (getPackageId mTable) (typeWith before) s
      = Returns true s1 ->
      generateType mTable mOptions package (getPackageId mTable)
                   (typeWith (before ++ entry :: after)%list) s
      = generateType mTable mOptions package (getPackageId mTable) (typeWith after)
                     (emit s1 declaration))
  /\ (forall typesBefore typesAfter s s',
         types mTable
         = (typesBefore ++ typeWith (before ++ entry :: after)%list :: typesAfter)%list ->
         generate mTable mOptions package s = Returns true s' ->
         out s' = out s ++
                  preamble package ++
                  joined (map (classText mTable mOptions package) typesBefore) ++
                  classOpen (ResourceType_print tag) ++
                  joined (map (entryText mTable mOptions package (typeWith []))
                              before) ++
                  declaration ++
                  joined (map (entryText mTable mOptions package (typeWith []))
                              after) ++
                  classClose ++
                  joined (map (classText mTable mOptions package) typesAfter) ++
                  "}" ++ endl).
Proof.
  intros Hty Hid Hpass Hvalid typeWith declaration.
  assert (Hstep : forall s,
             generateEntry mTable mOptions package (getPackageId mTable)
                           (typeWith []) entry s
             = Returns None (emit s declaration)).
  { intros s.
    rewrite (generateEntry_passes mTable mOptions package (typeWith []) entry
               plainName s Hid Hpass).
    apply (emitEntry_plain mTable mOptions package (typeWith []) entry plainName
             Hvalid Hty). }
  split.
  - intros s s1 Hbefore.
    exact (runType_after mTable mOptions package tag tid before after entry
             s s1 _ Hbefore (Hstep s1)).
  - intros typesBefore typesAfter s s' Htypes Hrun.
    destruct (generate_returns mTable mOptions package s true s' Hrun)
      as [(_ & -> & _) | (E & _)]; [| discriminate].
    unfold emit; cbn [out]. f_equal.
    assert (Hclass :
              classText mTable mOptions package
                        (typeWith (before ++ entry :: after)%list)
              = classOpen (ResourceType_print tag) ++
                joined (map (entryText mTable mOptions package (typeWith [])) before) ++
                declaration ++
                joined (map (entryText mTable mOptions package (typeWith [])) after) ++
                classClose).
    { unfold classText, typeWith. cbn [type entries].
      rewrite map_app, joined_app. cbn [map]. rewrite joined_cons.
      change (entryText mTable mOptions package
                        {| type := tag; typeId := tid;
                           entries := (before ++ entry :: after)%list |})
        with (entryText mTable mOptions package
                        {| type := tag; typeId := tid; entries := [] |}).
      rewrite (entryText_passes mTable mOptions package _ entry plainName Hpass).
      unfold declarationText. cbn [type]. rewrite Hty.
      fold declaration. now rewrite ?append_assoc. }
    unfold tableText. rewrite Htypes, map_app, joined_app.
    cbn [map]. rewrite joined_cons, Hclass. now rewrite ?append_assoc.
Qed.

Lemma plain_constant_packs_id_witness :
  generateType (Sample.table [Sample.idType [(7%N, "lib$action.bar-home")]])
               Sample.final "lib" 1
               (Sample.idType [(7%N, "lib$action.bar-home")])
               Sample.start
  = Returns true
      (emit Sample.start
            ("        public static final int action_bar_home = 0x01010007;" ++ endl)).
Proof.
  assert (Hpass : passesFilter (Sample.table [Sample.idType [(7%N, "lib$action.bar-home")]])
                               "lib"
                               {| entryId := 7; name := "lib$action.bar-home";
                                  values := [] |}
                               "action.bar-home") by (left; reflexivity).
  destruct (plain_constant_packs_id
              (Sample.table [Sample.idType [(7%N, "lib$action.bar-home")]])
              Sample.final "lib" Sample.tId 1 [] []
              {| entryId := 7; name := "lib$action.bar-home"; values := [] |}
              "action.bar-home" eq_refl eq_refl Hpass eq_refl) as (Hloop & _).
  exact (Hloop Sample.start Sample.start eq_refl).
Defined.

(** ** The package filter in the loop *)

(** C3, as amended. [generateType] has gone through the entries before an
    entry with a valid identifier and meets it. When the name unmangles
    and the origin is not the requested package, or when it does not
    unmangle and the requested package is not the table's own, the entry
    is skipped whatever its name: nothing is written, nothing else
    changes, and [generateType] goes on with the entries that follow. When
    the plain name is outside the reserved set and the entry has something
    to declare (any entry outside the styleable type; in the styleable
    type, one whose first value is a styleable with valid attributes),
    [generateType] writes text for the entry and goes on exactly when the
    origin is the requested package, respectively when the requested
    package is the table's own. *)
Theorem package_filter_selects_entries `{C : Collaborators}
        (mTable : ResourceTable) (mOptions : Options) (package : string)
        (tag : ResourceType) (tid : N)
        (before : list ResourceEntry) (entry : ResourceEntry) (s s1 : state) :
  let typeWith l := {| type := tag; typeId := tid; entries := l |} in
  let skipped := skippedInType mTable mOptions package tag tid before entry s in
  let emitted := emittedInType mTable mOptions package tag tid before entry s in
  generateType mTable mOptions package (getPackageId mTable) (typeWith before) s
  = Returns true s1 ->
  ResourceId_isValid (ResourceId_make (getPackageId mTable) tid (entryId entry)) = true ->
  (forall plainName origin,
      unmangle (name entry) = Some (plainName, origin) ->
      (origin <> package -> skipped)
      /\ (isValidSymbol plainName = true ->
          styleableWellFormed (typeWith before) entry = true ->
          (emitted <-> origin = package)))
  /\ (unmangle (name entry) = None ->
      (package <> getPackage mTable -> skipped)
      /\ (isValidSymbol (name entry) = true ->
          styleableWellFormed (typeWith before) entry = true ->
          (emitted <-> package = getPackage mTable))).
Proof.
  intros typeWith skipped emitted Hbefore Hid.
  assert (Hskip : generateEntry mTable mOptions package (getPackageId mTable)
                                (typeWith []) entry s1 = Returns None s1 ->
                  skipped).
  { intros Hstep. exists s1. split; [exact Hbefore |]. intros after.
    exact (runType_after mTable mOptions package tag tid before after entry
             s s1 s1 Hbefore Hstep). }
  assert (Hemit : forall plainName,
             passesFilter mTable package entry plainName ->
             isValidSymbol plainName = true ->
             styleableWellFormed (typeWith before) entry = true ->
             emitted).
  { intros plainName Hpass Hvalid Hwf.
    destruct (generateEntry_emits mTable mOptions package (typeWith []) entry
                plainName s1 Hid Hwf Hpass Hvalid) as (text & Hne & Hstep).
    exists s1, text. repeat split; trivial. intros after.
    exact (runType_after mTable mOptions package tag tid before after entry
             s s1 _ Hbefore Hstep). }
  split.
  - intros plainName origin Hun.
    assert (Hs : origin <> package -> skipped).
    { intros Hne. apply Hskip.
      apply (generateEntry_skips_mangled mTable mOptions package (typeWith [])
               entry plainName origin s1 Hid Hun Hne). }
    split; [exact Hs |]. intros Hvalid Hwf. split.
    + intros He. destruct (String.eqb_spec origin package) as [E|Hne]; [exact E |].
      elim (emittedInType_not_skipped mTable mOptions package tag tid before
              entry s He). now apply Hs.
    + intros ->. apply Hemit with plainName; trivial. now left.
  - intros Hun.
    assert (Hs : package <> getPackage mTable -> skipped).
    { intros Hne. apply Hskip.
      apply (generateEntry_skips_plain mTable mOptions package (typeWith [])
               entry s1 Hid Hun Hne). }
    split; [exact Hs |]. intros Hvalid Hwf. split.
    + intros He.
      destruct (String.eqb_spec package (getPackage mTable)) as [E|Hne]; [exact E |].
      elim (emittedInType_not_skipped mTable mOptions package tag tid before
              entry s He). now apply Hs.
    + intros Hpkg. apply Hemit with (name entry); trivial.
      right. now repeat split.
Qed.

Lemma package_filter_selects_entries_witness :
  skippedInType (Sample.table [Sample.idType [(2%N, "foo"); (1%N, "lib$class")]])
                Sample.final "app" Sample.tId 1
                [ {| entryId := 2; name := "foo"; values := [] |} ]
                Sample.libClassEntry Sample.start
  /\ emittedInType (Sample.table [Sample.idType [(2%N, "foo"); (3%N, "app$home")]])
                   Sample.final "app" Sample.tId 1
                   [ {| entryId := 2; name := "foo"; values := [] |} ]
                   {| entryId := 3; name := "app$home"; values := [] |}
                   Sample.start.
Proof.
  assert (Hbefore : forall t,
             generateType (Sample.table t) Sample.final "app"
                          (getPackageId (Sample.table t))
                          {| type := Sample.tId; typeId := 1;
                             entries := [ {| entryId := 2; name := "foo";
                                             values := [] |} ] |}
                          Sample.start
             = Returns true
                 (emit Sample.start
                       ("        public static final int foo = 0x01010002;" ++ endl)))
    by (intros t; reflexivity).
  split.
  - destruct (package_filter_selects_entries
                (Sample.table [Sample.idType [(2%N, "foo"); (1%N, "lib$class")]])
                Sample.final "app" Sample.tId 1
                [ {| entryId := 2; name := "foo"; values := [] |} ]
                Sample.libClassEntry Sample.start _ (Hbefore _) eq_refl)
      as (Hmangled & _).
    destruct (Hmangled "class" "lib" eq_refl) as (Hskip & _).
    apply Hskip. discriminate.
  - destruct (package_filter_selects_entries
                (Sample.table [Sample.idType [(2%N, "foo"); (3%N, "app$home")]])
                Sample.final "app" Sample.tId 1
                [ {| entryId := 2; name := "foo"; values := [] |} ]
                {| entryId := 3; name := "app$home"; values := [] |} Sample.start
                _ (Hbefore _) eq_refl) as (Hmangled & _).
    destruct (Hmangled "home" "app" eq_refl) as (_ & Hemit).
    apply Hemit; reflexivity.
Defined.

(** C3, as the specification has it, fails on an entry whose name is a
    Java keyword: "class" is not mangled and the requested package "app"
    is the table's own, yet [generateType] does not emit the entry; it
    sets the error and returns [false], and [generate] returns [false]
    with the nested class of the type opened and nothing in it. *)
Lemma reserved_entry_is_not_emitted :
  unmangle (name Sample.classEntry) = None
  /\ "app" = getPackage (Sample.table [Sample.idType [(1%N, "class")]])
  /\ generateType (Sample.table [Sample.idType [(1%N, "class")]])
                  Sample.final "app" 1
                  (Sample.idType [(1%N, "class")]) Sample.start
     = Returns false
         {| out := ""; mError := "invalid symbol name 'app:id/class'" |}
  /\ generate (Sample.table [Sample.idType [(1%N, "class")]])
              Sample.final "app" Sample.start
     = Returns false
         {| out := preamble "app" ++ classOpen "id";
            mError := "invalid symbol name 'app:id/class'" |}
  /\ ~ (emittedInType (Sample.table [Sample.idType [(1%N, "class")]])
                      Sample.final "app" Sample.tId 1 [] Sample.classEntry
                      Sample.start
        <-> "app" = getPackage (Sample.table [Sample.idType [(1%N, "class")]])).
Proof.
  split; [reflexivity |]. split; [reflexivity |]. split; [reflexivity |].
  split; [vm_compute; reflexivity |].
  intros [_ Himp]. destruct (Himp eq_refl) as (s1 & text & _ & _ & Hr).
  specialize (Hr []). discriminate Hr.
Qed.

(** ** The array of a styleable and the storage order *)

(** Under total orders of both components, the sorted vector is the same
    for every storage order of the attributes. *)
Lemma sortedAttributes_storage_order `{C : Collaborators}
      `{O : !ResourceIdOrder} `{NO : !ResourceNameRefOrder}
      (styleable styleable' : Styleable) :
  Permutation (st_entries styleable) (st_entries styleable') ->
  sortedAttributes styleable' = sortedAttributes styleable.
Proof.
  intros Hperm. unfold sortedAttributes, pair_ltb. apply std_sort_permutation.
  - apply std_pair_ltb_irrefl;
      [apply ResourceId_lt_irrefl | apply ResourceNameRef_lt_irrefl].
  - apply std_pair_ltb_trans;
      [apply ResourceId_lt_irrefl | apply ResourceId_lt_trans
      | apply ResourceId_lt_total | apply ResourceNameRef_lt_trans].
  - apply std_pair_ltb_total;
      [apply ResourceId_lt_total | apply ResourceNameRef_lt_total].
  - unfold attributePairs. apply Permutation_map. now apply Permutation_sym.
Qed.

(** C2. For a styleable whose attributes pass the assertions, [visit]
    writes the array of the attributes' identifiers in ascending order (a
    rearrangement of the stored ones in which no identifier is followed by
    a smaller one), then one index constant for every position of the
    sorted vector, named after the attribute at that position and valued
    0, 1, 2, ... in that order. When the names are totally ordered as
    well, a styleable that stores the same attributes in another order
    gets the same sorted vector, hence the same text from [visit]: the
    same array and, for every attribute, the same index constant with the
    same value. *)
Theorem styleable_array_is_sorted `{C : Collaborators}
        `{O : !ResourceIdOrder}
        (mTable : ResourceTable) (mOptions : Options)
        (styleable : Styleable) (owner : string) (s : state) :
  attributesValid styleable = true ->
  let sorted := sortedAttributes styleable in
  let ids := map fst sorted in
  visit mTable mOptions styleable owner s
  = Returns tt
      (emit s
         (arrayDecl (transform owner) ids ++
          joined (map (fun p : nat * (ResourceId * ResourceNameRef) =>
                         constantDecl (useFinal mOptions)
                                      (indexSymbol mTable owner (snd (snd p)))
                                      (print_size_t (fst p)))
                      (indexed sorted))))
  /\ Permutation ids (map attr_id (st_entries styleable))
  /\ Sorted ResourceId_le ids
  /\ map fst (indexed sorted) = seq 0 (List.length (st_entries styleable))
  /\ (ResourceNameRefOrder ->
      forall styleable',
        Permutation (st_entries styleable) (st_entries styleable') ->
        sortedAttributes styleable' = sorted
        /\ visit mTable mOptions styleable' owner s
           = visit mTable mOptions styleable owner s).
Proof.
  intros Hv sorted ids. split; [| split; [| split; [| split]]].
  - exact (visit_writes mTable mOptions styleable owner Hv s).
  - apply sortedAttributes_ids_perm.
  - apply sortedAttributes_ids_sorted.
  - unfold sorted. now rewrite indexed_positions, sortedAttributes_length.
  - intros NO styleable' Hperm.
    assert (E : sortedAttributes styleable' = sortedAttributes styleable)
      by now apply sortedAttributes_storage_order.
    split; [exact E |].
    assert (Hv' : attributesValid styleable' = true).
    { unfold attributesValid in *. rewrite forallb_forall in *.
      intros x Hx. apply Hv.
      apply Permutation_in with (st_entries styleable'); trivial.
      now apply Permutation_sym. }
    rewrite (visit_writes mTable mOptions styleable owner Hv s).
    rewrite (visit_writes mTable mOptions styleable' owner Hv' s).
    now rewrite E.
Qed.

Lemma styleable_array_is_sorted_witness :
  visit (Sample.table []) Sample.final Sample.theme "Theme" Sample.start
  = Returns tt
      (emit Sample.start
         ("        public static final int[] Theme = {" ++ endl ++
          "            0x0101000a, 0x01010014, 0x0101001e" ++ endl ++
          "        };" ++ endl ++
          "        public static final int Theme_background = 0;" ++ endl ++
          "        public static final int Theme_android_text_size = 1;" ++ endl ++
          "        public static final int Theme_textColor = 2;" ++ endl))
  /\ visit (Sample.table []) Sample.final Sample.themePermuted "Theme" Sample.start
     = visit (Sample.table []) Sample.final Sample.theme "Theme" Sample.start
  /\ visit (Sample.table []) Sample.final
           {| st_entries := rev (st_entries Sample.twins) |} "Theme" Sample.start
     = visit (Sample.table []) Sample.final Sample.twins "Theme" Sample.start.
Proof.
  assert (Hv : attributesValid Sample.theme = true) by reflexivity.
  assert (Hw : attributesValid Sample.twins = true) by reflexivity.
  destruct (styleable_array_is_sorted (Sample.table []) Sample.final
              Sample.theme "Theme" Sample.start Hv)
    as (Hout & _ & _ & _ & Hperm).
  destruct (styleable_array_is_sorted (Sample.table []) Sample.final
              Sample.twins "Theme" Sample.start Hw)
    as (_ & _ & _ & _ & Hperm').
  split; [exact Hout |]. split.
  - apply (Hperm _ Sample.themePermuted). apply Permutation_rev.
  - apply (Hperm' _ {| st_entries := rev (st_entries Sample.twins) |}).
    apply Permutation_rev.
Defined.

(** ** The names of the declared constants *)

Lemma transform_keeps_valid (plainName : string) :
  isValidSymbol plainName = true -> isValidSymbol (transform plainName) = true.
Proof.
  intros Hv. destruct (isValidSymbol (transform plainName)) eqn:Ht; [reflexivity |].
  destruct (reserved_symbols_are_lowercase_words _ Ht) as [_ Hlow].
  assert (E : plainName = transform plainName).
  { apply transform_to_plain; [| reflexivity].
    intros i Hget. specialize (Hlow i "_"%char Hget). discriminate. }
  rewrite <- E in Ht. congruence.
Qed.

Lemma declarationsOf_text `{C : Collaborators}
      (mTable : ResourceTable) (mOptions : Options)
      (type_ : ResourceTableType) (entry : ResourceEntry) (plainName : string) :
  joined (map (declarationLine (useFinal mOptions))
              (declarationsOf mTable type_ entry plainName))
  = declarationText mTable mOptions type_ entry plainName.
Proof.
  unfold declarationsOf, declarationText.
  destruct (ResourceType_eqb (type type_) kStyleable).
  - destruct (values entry) as [|front rest]; [reflexivity |].
    destruct (value front) as [styleable|]; [| reflexivity].
    cbn [map]. rewrite joined_cons, map_map. reflexivity.
  - cbn [map]. rewrite joined_cons. apply append_nil_r.
Qed.

Lemma entryDeclarations_text `{C : Collaborators}
      (mTable : ResourceTable) (mOptions : Options) (package : string)
      (type_ : ResourceTableType) (entry : ResourceEntry) :
  joined (map (declarationLine (useFinal mOptions))
              (entryDeclarations mTable package type_ entry))
  = entryText mTable mOptions package type_ entry.
Proof.
  unfold entryDeclarations, entryText.
  destruct (unmangle (name entry)) as [[plainName origin]|].
  - destruct (package =? origin)%string; [apply declarationsOf_text | reflexivity].
  - destruct (package =? getPackage mTable)%string;
      [apply declarationsOf_text | reflexivity].
Qed.

Lemma declarationsOf_valid `{C : Collaborators}
      (mTable : ResourceTable)
      (type_ : ResourceTableType) (entry : ResourceEntry) (plainName : string)
      (d : Declaration) :
  isValidSymbol plainName = true ->
  In d (declarationsOf mTable type_ entry plainName) ->
  isValidSymbol (declaredSymbol d) = true.
Proof.
  intros Hvalid. unfold declarationsOf.
  destruct (ResourceType_eqb (type type_) kStyleable).
  - destruct (values entry) as [|front rest]; [intros [] |].
    destruct (value front) as [styleable|]; [| intros []].
    intros [<- | Hin]; cbn [declaredSymbol].
    + now apply transform_keeps_valid.
    + apply in_map_iff in Hin as (p & <- & _). cbn [declaredSymbol].
      unfold indexSymbol. apply underscore_makes_valid.
  - intros [<- | []]. cbn [declaredSymbol]. now apply transform_keeps_valid.
Qed.

(** X3. When [generate] returns [true], the body of every nested class is
    the text of a list of declarations - for each entry that passes the
    package filter its constant, or its array followed by its index
    constants - and the name of every one of these constants and arrays is
    outside the reserved set, although the check of line 165 is made on
    the plain name, before [transform]: [transform] only brings in
    underscores, and no reserved word has one. The names of the nested
    classes themselves are the printed type tags, written unchecked. *)
Theorem declared_symbols_are_not_reserved `{C : Collaborators}
        (mTable : ResourceTable) (mOptions : Options) (package : string)
        (s s' : state) :
  generate mTable mOptions package s = Returns true s' ->
  out s' = out s ++
           preamble package ++
           joined (map (fun type_ =>
                          classOpen (ResourceType_print (type type_)) ++
                          joined (map (fun entry =>
                                         joined (map (declarationLine (useFinal mOptions))
                                                     (entryDeclarations mTable package
                                                                        type_ entry)))
                                      (entries type_)) ++
                          classClose)
                       (types mTable)) ++
           "}" ++ endl
  /\ forall type_ entry d,
      In type_ (types mTable) -> In entry (entries type_) ->
      In d (entryDeclarations mTable package type_ entry) ->
      isValidSymbol (declaredSymbol d) = true.
Proof.
  intros Hrun.
  destruct (generate_returns mTable mOptions package s true s' Hrun)
    as [(_ & -> & Hall) | (E & _)]; [| discriminate].
  split.
  - unfold emit; cbn [out]. f_equal. unfold tableText. f_equal. f_equal. f_equal.
    apply map_ext. intros type_. unfold classText. f_equal. f_equal. f_equal.
    apply map_ext. intros entry. symmetry. apply entryDeclarations_text.
  - intros type_ entry d Hty He Hd.
    destruct (Hall type_ entry Hty He) as [_ Hvalid].
    unfold entryDeclarations in Hd.
    destruct (unmangle (name entry)) as [[plainName origin]|] eqn:Hun.
    + destruct (String.eqb_spec package origin) as [E|_]; [| destruct Hd].
      subst origin. apply declarationsOf_valid with mTable type_ entry plainName;
        [| exact Hd].
      apply Hvalid. now left.
    + destruct (String.eqb_spec package (getPackage mTable)) as [E|_]; [| destruct Hd].
      apply declarationsOf_valid with mTable type_ entry (name entry); [| exact Hd].
      apply Hvalid. right. now repeat split.
Qed.

Lemma declared_symbols_are_not_reserved_witness :
  isValidSymbol (declaredSymbol (ConstantDeclaration "do_while" "0x01010001")) = true
  /\ isValidSymbol
       (declaredSymbol (ArrayDeclaration "Theme"
                                         (map fst (sortedAttributes Sample.theme))))
     = true.
Proof.
  assert (Hrun : generate (Sample.table [Sample.idType [(1%N, "do.while")];
                                         Sample.styleableType])
                          Sample.final "app" Sample.start
                 = Returns true
                     (finalState
                        (generate (Sample.table [Sample.idType [(1%N, "do.while")];
                                                 Sample.styleableType])
                                  Sample.final "app" Sample.start)))
    by (vm_compute; reflexivity).
  destruct (declared_symbols_are_not_reserved _ _ _ _ _ Hrun) as [_ Hvalid].
  split.
  - apply (Hvalid (Sample.idType [(1%N, "do.while")])
                  {| entryId := 1; name := "do.while"; values := [] |}).
    + now left.
    + now left.
    + now left.
  - apply (Hvalid Sample.styleableType
                  {| entryId := 0; name := "Theme";
                     values := [ {| value := StyleableValue Sample.theme |} ] |}).
    + right. now left.
    + now left.
    + now left.
Defined.
